(** * apk: package-state reconciliation
    (lib/ansible/modules/extras/packaging/os/apk.py)

    A shallow embedding of the module's functions over an abstract
    package manager, with every call of [module.run_command] recorded in
    a trace, and the properties of the reconciliation logic proved over
    it.

    Layout:
    - module [Re]: the fragment of Python's backtracking [re] engine that
      [query_latest] needs, and a declarative account of the texts its
      expression accepts;
    - the data of the module, and functions that read a trace;
    - concrete backends for the examples;
    - section [Apk]: [update_package_db], [query_package],
      [query_latest], [upgrade_packages], [install_packages],
      [remove_packages] and [main] in a monad of state and early exit,
      followed by their properties;
    - the scenarios of the specification and the examples that need a
      concrete backend.

    Modelling choices.  Strings are byte strings, as in Python 2.  The
    functions [exit_json] and [fail_json] of [AnsibleModule] end the run;
    [run_command] is called with [check_rc=False] and returns its triple.
    The validation of the arguments by [AnsibleModule] is not part of the
    module and is not modelled: [state] ranges over its [choices], and
    [name] may be absent.  A package name is spliced into the regular
    expression of [query_latest] unescaped; the embedding interprets the
    expression for names free of metacharacters and leaves the result of
    [re.search] for the other names as a parameter. *)

From Stdlib Require Import List String Ascii Bool ZArith Lia Arith.
Import ListNotations.

Set Implicit Arguments.

(* ================================================================== *)
(** ** Regular expressions, as far as [query_latest] needs them *)

Module Re.

Local Open Scope char_scope.
Local Open Scope bool_scope.

(** Character classes of Python 2 byte strings (no LOCALE, no UNICODE). *)

(** [\d] *)
Definition is_digit (c : ascii) : bool :=
  ((48 <=? nat_of_ascii c) && (nat_of_ascii c <=? 57))%nat.

(** [\w]: [a-zA-Z0-9_] *)
Definition is_word (c : ascii) : bool :=
  is_digit c
  || ((65 <=? nat_of_ascii c) && (nat_of_ascii c <=? 90))%nat
  || ((97 <=? nat_of_ascii c) && (nat_of_ascii c <=? 122))%nat
  || Ascii.eqb c "_".

(** [\s]: space, \t, \n, \v, \f, \r *)
Definition is_space (c : ascii) : bool :=
  Ascii.eqb c " " || ((9 <=? nat_of_ascii c) && (nat_of_ascii c <=? 13))%nat.

(** [.]: anything but a newline (no DOTALL) *)
Definition is_dot (c : ascii) : bool := negb (Ascii.eqb c "010").

(** [[\d\.\w]] *)
Definition is_ver (c : ascii) : bool := is_digit c || Ascii.eqb c "." || is_word c.

(** [[\d\w]] *)
Definition is_rel (c : ascii) : bool := is_digit c || is_word c.

(** The expressions that occur: literals, one-character classes, a greedy
    [+] over a class, concatenation and numbered capture groups. *)
Inductive regex : Type :=
| Eps
| Lit (c : ascii)
| Cls (p : ascii -> bool)
| Plus (p : ascii -> bool)
| Seq (r1 r2 : regex)
| Grp (i : nat) (r : regex).

(** Captured groups, most recent binding first. *)
Definition groups := list (nat * list ascii).

Fixpoint group (g : groups) (i : nat) : option (list ascii) :=
  match g with
  | [] => None
  | (j, s) :: g' => if Nat.eqb i j then Some s else group g' i
  end.

(** Greedy repetition: take one more character of the class if that leads
    to a match, otherwise hand over to the continuation. *)
Fixpoint star_k {R} (p : ascii -> bool) (k : list ascii -> option R)
         (s : list ascii) : option R :=
  match s with
  | c :: s' =>
      if p c then
        match star_k p k s' with
        | Some r => Some r
        | None => k s
        end
      else k s
  | [] => k s
  end.

(** The backtracking matcher, anchored at the head of [s]; [k] is what is
    left to match. *)
Fixpoint rmatch (r : regex) (s : list ascii) (g : groups)
         (k : list ascii -> groups -> option groups) : option groups :=
  match r with
  | Eps => k s g
  | Lit c =>
      match s with
      | a :: s' => if Ascii.eqb a c then k s' g else None
      | [] => None
      end
  | Cls p =>
      match s with
      | a :: s' => if p a then k s' g else None
      | [] => None
      end
  | Plus p =>
      match s with
      | a :: s' => if p a then star_k p (fun rest => k rest g) s' else None
      | [] => None
      end
  | Seq r1 r2 => rmatch r1 s g (fun s1 g1 => rmatch r2 s1 g1 k)
  | Grp i r1 =>
      rmatch r1 s g
        (fun rest g1 => k rest ((i, firstn (List.length s - List.length rest) s) :: g1))
  end.

(** [re.match]: a match at the head of the text. *)
Definition re_match (r : regex) (s : list ascii) : option groups :=
  rmatch r s [] (fun _ g => Some g).

(** [re.search]: the match at the leftmost position that has one. *)
Fixpoint re_search (r : regex) (s : list ascii) : option groups :=
  match re_match r s with
  | Some g => Some g
  | None =>
      match s with
      | [] => None
      | _ :: s' => re_search r s'
      end
  end.

(** A string of literal characters. *)
Fixpoint lits (s : list ascii) : regex :=
  match s with
  | [] => Eps
  | c :: s' => Seq (Lit c) (lits s')
  end.

(** Characters that the expression syntax does not read literally. *)
Definition is_special (c : ascii) : bool :=
  existsb (Ascii.eqb c)
    ["."; "^"; "$"; "*"; "+"; "?"; "{"; "}"; "["; "]"; "\"; "|"; "("; ")"].

Definition plain (s : list ascii) : bool := forallb (fun c => negb (is_special c)) s.

(** What an expression accepts, and the groups it binds on the way. *)
Inductive matches : regex -> list ascii -> groups -> groups -> Prop :=
| m_eps g : matches Eps [] g g
| m_lit c g : matches (Lit c) [c] g g
| m_cls p a g : p a = true -> matches (Cls p) [a] g g
| m_plus p a s g :
    p a = true -> forallb p s = true -> matches (Plus p) (a :: s) g g
| m_seq r1 r2 s1 s2 g g1 g2 :
    matches r1 s1 g g1 -> matches r2 s2 g1 g2 ->
    matches (Seq r1 r2) (s1 ++ s2) g g2
| m_grp i r s g g1 :
    matches r s g g1 -> matches (Grp i r) s g ((i, s) :: g1).

(** A non-empty run of characters of one class. *)
Definition run_of (p : ascii -> bool) (s : list ascii) : Prop :=
  s <> [] /\ forallb p s = true.

(** The text [name-VER-REL  m  VER-REL ] with marker [m]: the shape of a
    line of the version listing, up to and including the white space
    that follows it. *)
Definition line_shape (name : list ascii) (m : ascii) (s : list ascii) : Prop :=
  exists v1 r1 w1 w2 v2 r2 w3,
    s = name ++ "-" :: v1 ++ "-" :: r1 ++ w1 ++ m :: w2
             ++ v2 ++ "-" :: r2 ++ w3 /\
    run_of is_ver v1 /\ run_of is_rel r1 /\ run_of is_space w1 /\
    is_dot m = true /\
    run_of is_space w2 /\ run_of is_ver v2 /\ run_of is_rel r2 /\
    run_of is_space w3.

(** [s] has an occurrence of the shape with marker [m] that starts after
    [n] characters. *)
Definition shape_at (name : list ascii) (m : ascii) (n : nat)
           (s : list ascii) : Prop :=
  exists l rest, skipn n s = l ++ rest /\ line_shape name m l.

(** Reading the text from the left, the first place where the shape
    occurs (anywhere, not only at the start of a line) has marker [<]. *)
Definition first_marker_older (name s : list ascii) : Prop :=
  exists n, shape_at name "<" n s /\
            forall j m, (j < n)%nat -> ~ shape_at name m j s.

End Re.

(* ================================================================== *)
(** ** Data of the module *)

Import Re.
Local Open Scope string_scope.
Local Open Scope Z_scope.

(** The values [choices] lets through for [state]. *)
Inductive State : Type := present | installed | absent | removed | latest.

Definition State_eqb (a b : State) : bool :=
  match a, b with
  | present, present | installed, installed | absent, absent
  | removed, removed | latest, latest => true
  | _, _ => false
  end.

(** [module.params]: [name] is [None] when the option was not given. *)
Record Params : Type := {
  state : State;
  name : option (list string);
  update_cache : bool;
  upgrade : bool
}.

(** What the module reads of its [AnsibleModule]. *)
Record AnsibleModule : Type := {
  params : Params;
  check_mode : bool
}.

(** How a run ends: [exit_json], [fail_json], or an exception nobody
    catches. *)
Inductive Outcome : Type :=
| Exited (changed : bool) (msg : string)
| Failed (msg : string)
| Raised.

(** Each call site of [module.run_command] is labelled with the function
    that makes the call and the local variables it builds the command
    from. *)
Inductive Tag : Type :=
| TUpdate
| TInfo (name : string)
| TVersion (name : string)
| TUpgrade
| TAdd (uninstalled : list string) (upgrade : bool)
| TDel (installed : list string).

(** One call of [module.run_command] and what came back. *)
Record Event : Type := {
  ev_tag : Tag;
  ev_cmd : string;
  ev_rc : Z;
  ev_out : string
}.

(** What [re.search(search_pattern, stdout)] gives [query_latest]:
    [re.error], [None], or a match with its [group(2)]. *)
Inductive SearchResult : Type :=
| ReError
| NoMatch
| Match (group2 : option (list ascii)).

(** The backend: a command line in, [(rc, stdout, stderr)] out. *)
Definition Backend (World : Type) : Type :=
  World -> string -> (Z * string * string) * World.

Definition APK_PATH : string := "/sbin/apk".

(** [" ".join(l)] *)
Definition join (l : list string) : string := String.concat " " l.

(** [re.search('^OK', stdout)]: without MULTILINE, [^] is the start of the
    text. *)
Definition starts_with_OK (stdout : string) : bool := String.prefix "OK" stdout.

(** The expression [query_latest] builds for a name that is read
    literally:
    [(name)-[\d\.\w]+-[\d\w]+\s+(.)\s+[\d\.\w]+-[\d\w]+\s+]. *)
Definition search_pattern (name : list ascii) : regex :=
  Seq (Grp 1 (lits name))
 (Seq (Lit "-")
 (Seq (Plus is_ver)
 (Seq (Lit "-")
 (Seq (Plus is_rel)
 (Seq (Plus is_space)
 (Seq (Grp 2 (Cls is_dot))
 (Seq (Plus is_space)
 (Seq (Plus is_ver)
 (Seq (Lit "-")
 (Seq (Plus is_rel)
      (Plus is_space))))))))))).

(** The lines of a text, without their newlines. *)
Fixpoint lines_from (cur : list ascii) (s : list ascii) : list (list ascii) :=
  match s with
  | [] => [rev cur]
  | c :: s' =>
      if Ascii.eqb c "010" then rev cur :: lines_from [] s'
      else lines_from (c :: cur) s'
  end.

Definition lines (s : list ascii) : list (list ascii) := lines_from [] s.

(** The claim about the update query, in the spec's words: the listing
    contains the line of this very package (the line begins with the
    name, then the installed version, the marker, the candidate version)
    and its marker is [<]. *)
Definition own_line_newer (name out : list ascii) : bool :=
  existsb
    (fun line =>
       match re_match (search_pattern name) (line ++ ["010"%char]) with
       | Some g =>
           match group g 2 with
           | Some [c] => Ascii.eqb c "<"
           | _ => false
           end
       | None => false
       end)
    (lines out).

(** The state parameter after the two normalising assignments of [main]. *)
Definition normalize (s : State) : State :=
  let s1 := match s with present | installed => present | _ => s end in
  match s1 with absent | removed => absent | _ => s1 end.

(** *** Reading a trace *)

(** The names whose installed-query was issued, in the order of the
    calls. *)
Definition queried (tr : list Event) : list string :=
  flat_map (fun e => match ev_tag e with TInfo n => [n] | _ => [] end) tr.

(** The names the backend reported as installed: the installed-queries
    that completed with success. *)
Definition reported_installed (tr : list Event) : list string :=
  flat_map (fun e => match ev_tag e with
                     | TInfo n => if ev_rc e =? 0 then [n] else []
                     | _ => []
                     end) tr.

(** The names the backend did not report as installed. *)
Definition reported_missing (tr : list Event) : list string :=
  flat_map (fun e => match ev_tag e with
                     | TInfo n => if ev_rc e =? 0 then [] else [n]
                     | _ => []
                     end) tr.

(** The names submitted for installation, and for removal. *)
Definition install_batch (tr : list Event) : list string :=
  flat_map (fun e => match ev_tag e with TAdd l _ => l | _ => [] end) tr.

Definition remove_batch (tr : list Event) : list string :=
  flat_map (fun e => match ev_tag e with TDel l => l | _ => [] end) tr.

(** Read-only calls, calls of the per-package reconciliation, and the
    transactions among them. *)
Definition is_query (t : Tag) : bool :=
  match t with TInfo _ | TVersion _ => true | _ => false end.

Definition is_per_package (t : Tag) : bool :=
  match t with TUpdate | TUpgrade => false | _ => true end.

Definition is_transaction (t : Tag) : bool :=
  match t with TAdd _ _ | TDel _ => true | _ => false end.

(** Calls that change the system, or would outside check mode:
    upgrade-all and the two transactions. *)
Definition is_change (t : Tag) : bool :=
  match t with TUpgrade | TAdd _ _ | TDel _ => true | _ => false end.

Definition is_update (t : Tag) : bool :=
  match t with TUpdate => true | _ => false end.

(** Calls that belong to state [latest]: the update query, and an
    [apk add] carrying [--upgrade]. *)
Definition needs_latest (t : Tag) : bool :=
  match t with TVersion _ | TAdd _ true => true | _ => false end.

(** The command line of a changing call, from its label and the check
    mode. *)
Definition change_cmd (simulate : bool) (t : Tag) : string :=
  match t with
  | TUpgrade => if simulate then "apk upgrade --simulate" else "apk upgrade"
  | TAdd l u =>
      "apk add " ++ (if u then "--upgrade " else EmptyString)
                 ++ (if simulate then "--simulate " else EmptyString)
                 ++ join l
  | TDel l =>
      "apk del --purge " ++ (if simulate then "--simulate " else EmptyString)
                         ++ join l
  | _ => EmptyString
  end.

Definition not_del (t : Tag) : bool :=
  match t with TDel _ => false | _ => true end.

Definition not_add (t : Tag) : bool :=
  match t with TAdd _ _ => false | _ => true end.

(** [l] is [l'] with some elements left out. *)
Inductive subseq {A : Type} : list A -> list A -> Prop :=
| subseq_nil : subseq [] []
| subseq_keep x l l' : subseq l l' -> subseq (x :: l) (x :: l')
| subseq_drop x l l' : subseq l l' -> subseq l (x :: l').

(* ================================================================== *)
(** ** Concrete backends for the examples *)

Definition nl : string := String "010" EmptyString.

Fixpoint lookup (tbl : list (string * (Z * string))) (cmd : string)
  : option (Z * string) :=
  match tbl with
  | [] => None
  | (c, r) :: tbl' => if String.eqb cmd c then Some r else lookup tbl' cmd
  end.

(** A backend without memory: answers from a table, and [dflt] as the
    completion signal of every other command. *)
Definition table_backend (tbl : list (string * (Z * string))) (dflt : Z)
  : Backend unit :=
  fun w cmd =>
    match lookup tbl cmd with
    | Some (rc, out) => ((rc, out, EmptyString), w)
    | None => ((dflt, EmptyString, EmptyString), w)
    end.

(** A backend that keeps the set of installed names and answers the
    installed-query from it; [apk add]/[apk del] of a single name change
    the set. *)
Definition db_backend : Backend (list string) :=
  fun db cmd =>
    if String.prefix "apk -v info --installed " cmd then
      let n := String.substring 24 (String.length cmd - 24) cmd in
      ((if existsb (String.eqb n) db then 0 else 1, EmptyString, EmptyString),
       db)
    else if String.prefix "apk add " cmd then
      ((0, EmptyString, EmptyString),
       String.substring 8 (String.length cmd - 8) cmd :: db)
    else if String.prefix "apk del --purge " cmd then
      let n := String.substring 16 (String.length cmd - 16) cmd in
      ((0, EmptyString, EmptyString),
       filter (fun m => negb (String.eqb m n)) db)
    else ((0, EmptyString, EmptyString), db).

(** [foo] installed, and the listing says the installed version is older. *)
Definition foo_stale : Backend unit :=
  table_backend
    [("apk -v info --installed foo", (0, EmptyString));
     ("apk version foo", (0, "foo-1.0-r0 < 1.1-r0 " ++ nl))] 0.

(** [foo] installed and up to date. *)
Definition foo_current : Backend unit :=
  table_backend
    [("apk -v info --installed foo", (0, EmptyString));
     ("apk version foo", (0, "foo-1.0-r0 = 1.0-r0 " ++ nl))] 0.

(** The installed-query for [foo] completes with 1; all else succeeds. *)
Definition foo_missing : Backend unit :=
  table_backend [("apk -v info --installed foo", (1, EmptyString))] 0.

(** [foo] installed, [bar] not. *)
Definition foo_only : Backend unit :=
  table_backend
    [("apk -v info --installed foo", (0, EmptyString));
     ("apk -v info --installed bar", (1, EmptyString))] 0.

(** The listing asked for [foo] holds the line of [libfoo] only. *)
Definition libfoo_listing : string := "libfoo-1.0-r0 < 1.1-r0 " ++ nl.

Definition foo_libfoo : Backend unit :=
  table_backend
    [("apk -v info --installed foo", (0, EmptyString));
     ("apk version foo", (0, libfoo_listing))] 0.

(** The listing holds two lines of [foo]; the second one has [<]. *)
Definition two_line_listing : string :=
  "foo-1.0-r0 = 1.0-r0 " ++ nl ++ "foo-1.0-r0 < 1.1-r0 " ++ nl.

Definition foo_two_lines : Backend unit :=
  table_backend
    [("apk -v info --installed foo", (0, EmptyString));
     ("apk version foo", (0, two_line_listing))] 0.

(** Every command completes with 1: nothing is installed, nothing can be
    changed. *)
Definition nothing_installed : Backend unit :=
  table_backend [] 1.

(** Every command succeeds with empty output. *)
Definition all_ok : Backend unit := table_backend [] 0.

Definition mk (state : State) (name : option (list string))
           (update_cache upgrade check_mode : bool) : AnsibleModule :=
  {| params := {| state := state; name := name;
                  update_cache := update_cache; upgrade := upgrade |};
     check_mode := check_mode |}.

Definition no_re : string -> string -> SearchResult := fun _ _ => ReError.

Definition always_there {W} : W -> string -> bool := fun _ _ => true.

(* ================================================================== *)
(** ** The module over an abstract backend *)

Section Apk.

Variable World : Type.

(** [module.run_command(cmd, check_rc=False)]: the package manager, taken
    as given. *)
Variable backend : Backend World.

(** [os.path.exists]. *)
Variable path_exists : World -> string -> bool.

(** [re.search] on the expression built from a name with characters the
    expression syntax does not read literally; nothing is assumed about
    it. *)
Variable re_other : string -> string -> SearchResult.

(** The world, and the calls made so far, oldest first. *)
Record St : Type := { world : World; trace : list Event }.

(** A computation either goes on with a value or has ended the run. *)
Inductive Res (A : Type) : Type :=
| Ret (a : A)
| Stop (o : Outcome).
Arguments Ret {A} a.
Arguments Stop {A} o.

Definition M (A : Type) : Type := St -> Res A * St.

Definition ret {A} (a : A) : M A := fun s => (Ret a, s).

Definition bind {A B} (m : M A) (f : A -> M B) : M B :=
  fun s =>
    match m s with
    | (Ret a, s') => f a s'
    | (Stop o, s') => (Stop o, s')
    end.

Notation "x <- m ;; f" := (bind m (fun x => f))
  (at level 61, m at next level, right associativity).
Notation "m ;;; f" := (bind m (fun _ => f))
  (at level 61, right associativity).

(** Modelled from the spec: [AnsibleModule.exit_json] is not among the
    sources; [module.exit_json(changed=..., msg=...)] ends the run and
    surfaces the outcome [{changed, message}]. *)
Definition exit_json {A} (changed : bool) (msg : string) : M A :=
  fun s => (Stop (Exited changed msg), s).

(** Modelled from the spec: [AnsibleModule.fail_json] is not among the
    sources; [module.fail_json(msg=...)] ends the run on the fatal-error
    path, with a message and no change reported. *)
Definition fail_json {A} (msg : string) : M A :=
  fun s => (Stop (Failed msg), s).

(** An exception that is not caught. *)
Definition raise {A} : M A := fun s => (Stop Raised, s).

(** [if c: m] where [m] ends the run. *)
Definition when (c : bool) (m : M unit) : M unit := if c then m else ret tt.

Definition run_command (tag : Tag) (cmd : string) : M (Z * string * string) :=
  fun s =>
    let '((rc, stdout, stderr), w) := backend (world s) cmd in
    (Ret (rc, stdout, stderr),
     {| world := w;
        trace := (trace s ++ [{| ev_tag := tag; ev_cmd := cmd;
                                ev_rc := rc; ev_out := stdout |}])%list |}).

(** [for x in l: acc = body(x, acc)] *)
Fixpoint for_each {A B} (l : list A) (acc : B) (body : A -> B -> M B) : M B :=
  match l with
  | [] => ret acc
  | x :: l' => acc' <- body x acc ;; for_each l' acc' body
  end.

Definition update_package_db (module : AnsibleModule) : M bool :=
  let cmd := "apk update" in
  r <- run_command TUpdate cmd ;;
  let '(rc, stdout, stderr) := r in
  if rc =? 0 then ret true
  else fail_json "could not update package db".

Definition query_package (module : AnsibleModule) (name : string) : M bool :=
  let cmd := "apk -v info --installed " ++ name in
  r <- run_command (TInfo name) cmd ;;
  let '(rc, stdout, stderr) := r in
  if rc =? 0 then ret true
  else ret false.

(** [re.search(search_pattern, stdout)] for the pattern of [name]. *)
Definition search (name stdout : string) : SearchResult :=
  if plain (list_ascii_of_string name) then
    match re_search (search_pattern (list_ascii_of_string name))
                    (list_ascii_of_string stdout) with
    | Some g => Match (group g 2)
    | None => NoMatch
    end
  else re_other name stdout.

(** [match and match.group(2) == "<"] *)
Definition says_older (r : SearchResult) : bool :=
  match r with
  | Match (Some [c]) => Ascii.eqb c "<"
  | _ => false
  end.

Definition query_latest (module : AnsibleModule) (name : string) : M bool :=
  let cmd := "apk version " ++ name in
  r <- run_command (TVersion name) cmd ;;
  let '(rc, stdout, stderr) := r in
  match search name stdout with
  | ReError => raise
  | m => if says_older m then ret false else ret true
  end.

Definition upgrade_packages (module : AnsibleModule) : M unit :=
  let cmd := if check_mode module then "apk upgrade --simulate"
             else "apk upgrade" in
  r <- run_command TUpgrade cmd ;;
  let '(rc, stdout, stderr) := r in
  when (negb (rc =? 0)) (fail_json "failed to upgrade packages") ;;;
  when (starts_with_OK stdout)
       (exit_json false "packages already upgraded") ;;;
  exit_json true "upgraded packages".

(** The body of the loop of [install_packages], on the loop's two
    variables. *)
Definition install_packages_body (module : AnsibleModule) (state : State)
           (name : string) (acc : list string * bool)
  : M (list string * bool) :=
  let '(uninstalled, upgrade) := acc in
  inst <- query_package module name ;;
  if negb inst then ret ((uninstalled ++ [name])%list, upgrade)
  else if State_eqb state latest then
    l <- query_latest module name ;;
    if negb l then ret (uninstalled, true)
    else ret (uninstalled, upgrade)
  else ret (uninstalled, upgrade).

Definition is_empty {A} (l : list A) : bool :=
  match l with [] => true | _ => false end.

Definition install_packages (module : AnsibleModule)
           (names : option (list string)) (state : State) : M unit :=
  match names with
  | None => raise
  | Some names =>
      r <- for_each names ([], false) (install_packages_body module state) ;;
      let '(uninstalled, upgrade) := r in
      when (is_empty uninstalled && negb upgrade)
           (exit_json false "package(s) already installed") ;;;
      let names := join uninstalled in
      let cmd :=
        if upgrade then
          if check_mode module then "apk add --upgrade --simulate " ++ names
          else "apk add --upgrade " ++ names
        else
          if check_mode module then "apk add --simulate " ++ names
          else "apk add " ++ names in
      r <- run_command (TAdd uninstalled upgrade) cmd ;;
      let '(rc, stdout, stderr) := r in
      when (negb (rc =? 0)) (fail_json ("failed to install " ++ names)) ;;;
      exit_json true ("installed " ++ names ++ " package(s)")
  end.

(** The body of the loop of [remove_packages]. *)
Definition remove_packages_body (module : AnsibleModule)
           (name : string) (installed : list string) : M (list string) :=
  inst <- query_package module name ;;
  if inst then ret (installed ++ [name])%list else ret installed.

Definition remove_packages (module : AnsibleModule)
           (names : option (list string)) : M unit :=
  match names with
  | None => raise
  | Some names =>
      installed <- for_each names [] (remove_packages_body module) ;;
      when (is_empty installed)
           (exit_json false "package(s) already removed") ;;;
      let names := join installed in
      let cmd :=
        if check_mode module then "apk del --purge --simulate " ++ names
        else "apk del --purge " ++ names in
      r <- run_command (TDel installed) cmd ;;
      let '(rc, stdout, stderr) := r in
      when (negb (rc =? 0))
           (fail_json ("failed to remove " ++ names ++ " package(s)")) ;;;
      exit_json true ("removed " ++ names ++ " package(s)")
  end.

(** [not p['name']]: not given, or the empty list. *)
Definition no_names (n : option (list string)) : bool :=
  match n with None => true | Some l => is_empty l end.

Definition main (module : AnsibleModule) : M unit :=
  ex <- (fun s => (Ret (path_exists (world s) APK_PATH), s)) ;;
  when (negb ex) (fail_json ("cannot find apk, looking for " ++ APK_PATH)) ;;;
  let p := params module in
  let state := normalize (state p) in
  when (update_cache p)
       (update_package_db module ;;;
        when (no_names (name p))
             (exit_json true "updated repository indexes")) ;;;
  when (upgrade p) (upgrade_packages module) ;;;
  match state with
  | present | latest => install_packages module (name p) state
  | absent => remove_packages module (name p)
  | _ => ret tt
  end.

(** A run from a world in which nothing has been called yet. *)
Definition run {A} (m : M A) (w : World) : Res A * St :=
  m {| world := w; trace := [] |}.

Definition outcome {A} (r : Res A * St) : option Outcome :=
  match fst r with Stop o => Some o | Ret _ => None end.

Definition calls {A} (r : Res A * St) : list Event := trace (snd r).

Definition commands {A} (r : Res A * St) : list string := map ev_cmd (calls r).

(** *** One call, spelled out *)

Definition info_cmd (name : string) : string :=
  "apk -v info --installed " ++ name.

Definition version_cmd (name : string) : string := "apk version " ++ name.

(** The record [run_command] leaves in the trace for a call made in
    world [w], and the world after the call. *)
Definition call_event (tag : Tag) (cmd : string) (w : World) : Event :=
  let '(rc, stdout, stderr) := fst (backend w cmd) in
  {| ev_tag := tag; ev_cmd := cmd; ev_rc := rc; ev_out := stdout |}.

Definition call_state (tag : Tag) (cmd : string) (s : St) : St :=
  {| world := snd (backend (world s) cmd);
     trace := (trace s ++ [call_event tag cmd (world s)])%list |}.

(** The backend's answers in world [w]: is [name] installed, and does the
    version listing say the installed version is older. *)
Definition installed_at (w : World) (name : string) : bool :=
  ev_rc (call_event (TInfo name) (info_cmd name) w) =? 0.

Definition older_at (w : World) (name : string) : SearchResult :=
  search name (ev_out (call_event (TVersion name) (version_cmd name) w)).


(** Some version listing in the trace says the installed version is
    older. *)
Definition reported_older (tr : list Event) : bool :=
  existsb (fun e => match ev_tag e with
                    | TVersion n => says_older (search n (ev_out e))
                    | _ => false
                    end) tr.

(** The command lines of the two transactions. *)
Definition add_cmd (module : AnsibleModule) (upgrade : bool)
           (batch : list string) : string :=
  "apk add " ++ (if upgrade then "--upgrade " else EmptyString)
             ++ (if check_mode module then "--simulate " else EmptyString)
             ++ join batch.

Definition del_cmd (module : AnsibleModule) (batch : list string) : string :=
  "apk del --purge " ++ (if check_mode module then "--simulate " else EmptyString)
                     ++ join batch.

(** Every call [m] makes carries a tag in [P]. *)
Definition emits {A} (P : Tag -> bool) (m : M A) : Prop :=
  forall s, exists evs,
      trace (snd (m s)) = (trace s ++ evs)%list /\
      forallb (fun e => P (ev_tag e)) evs = true.

(** [m] does not look at the calls made before it: started after any
    history, it does what it does from an empty one, and appends. *)
Definition framed {A} (m : M A) : Prop :=
  forall w tr,
    m {| world := w; trace := tr |} =
    (fst (m {| world := w; trace := [] |}),
     {| world := world (snd (m {| world := w; trace := [] |}));
        trace := (tr ++ trace (snd (m {| world := w; trace := [] |})))%list |}).



(* ================================================================== *)
(** ** The matcher against the declarative account *)

Lemma star_k_some R (p : ascii -> bool) (k : list ascii -> option R) s r :
  k s = Some r -> exists r', star_k p k s = Some r'.
Proof.
  intros Hk. destruct s as [|c s']; simpl.
  - eauto.
  - destruct (p c); [destruct (star_k p k s')|]; eauto.
Qed.

Lemma star_k_complete R (p : ascii -> bool) (k : list ascii -> option R) s1 :
  forall s2 r, forallb p s1 = true -> k s2 = Some r ->
               exists r', star_k p k (s1 ++ s2)%list = Some r'.
Proof.
  induction s1 as [|c s1 IH]; intros s2 r Hall Hk; simpl.
  - eapply star_k_some; eauto.
  - simpl in Hall. apply andb_true_iff in Hall as [Hc Hall].
    rewrite Hc. destruct (IH s2 r Hall Hk) as [r' ->]. eauto.
Qed.

Lemma star_k_sound R (p : ascii -> bool) (k : list ascii -> option R) s :
  forall r, star_k p k s = Some r ->
            exists s1 s2, s = (s1 ++ s2)%list /\ forallb p s1 = true /\
                          k s2 = Some r.
Proof.
  induction s as [|c s IH]; intros r H; simpl in H.
  - exists [], []. auto.
  - destruct (p c) eqn:Hc.
    + destruct (star_k p k s) as [r0|] eqn:Hs.
      * injection H as <-. destruct (IH r0 eq_refl) as (s1 & s2 & -> & Hall & Hk).
        exists (c :: s1), s2. simpl. rewrite Hc, Hall. auto.
      * exists [], (c :: s). auto.
    + exists [], (c :: s). auto.
Qed.

Lemma firstn_consumed (s1 s2 : list ascii) :
  firstn (List.length (s1 ++ s2) - List.length s2) (s1 ++ s2) = s1.
Proof.
  rewrite length_app, Nat.add_sub.
  rewrite firstn_app, Nat.sub_diag, firstn_all. simpl. apply app_nil_r.
Qed.

(** Whatever the matcher returns comes from a prefix the expression
    accepts, followed by a text the continuation accepts. *)
Lemma rmatch_sound r :
  forall s g k res,
    rmatch r s g k = Some res ->
    exists s1 s2 g1, s = (s1 ++ s2)%list /\ matches r s1 g g1 /\
                     k s2 g1 = Some res.
Proof.
  induction r as [|c|p|p|r1 IH1 r2 IH2|i r IH]; intros s g k res H; simpl in H.
  - exists [], s, g. repeat split; auto. constructor.
  - destruct s as [|a s']; [discriminate|].
    destruct (Ascii.eqb a c) eqn:E; [|discriminate].
    apply Ascii.eqb_eq in E as ->.
    exists [c], s', g. repeat split; auto. constructor.
  - destruct s as [|a s']; [discriminate|].
    destruct (p a) eqn:E; [|discriminate].
    exists [a], s', g. repeat split; auto. now constructor.
  - destruct s as [|a s']; [discriminate|].
    destruct (p a) eqn:E; [|discriminate].
    apply star_k_sound in H as (s1 & s2 & -> & Hall & Hk).
    exists (a :: s1), s2, g. repeat split; auto. now constructor.
  - apply IH1 in H as (s1 & s2 & g1 & -> & M1 & H).
    apply IH2 in H as (s3 & s4 & g2 & -> & M2 & H).
    exists (s1 ++ s3)%list, s4, g2. rewrite app_assoc.
    repeat split; auto. econstructor; eauto.
  - apply IH in H as (s1 & s2 & g1 & -> & M1 & H).
    rewrite firstn_consumed in H.
    exists s1, s2, ((i, s1) :: g1). repeat split; auto. now constructor.
Qed.

(** When the expression accepts a prefix and the continuation the rest,
    the matcher finds some match (not always that one). *)
Lemma rmatch_complete r s1 g g1 :
  matches r s1 g g1 ->
  forall s2 k res, k s2 g1 = Some res ->
                   exists res', rmatch r (s1 ++ s2)%list g k = Some res'.
Proof.
  induction 1 as [g|c g|p a g Hp|p a s g Hp Hall
                  |r1 r2 s1 s3 g g1 g2 M1 IH1 M2 IH2|i r s g g1 M1 IH];
    intros s2 k res Hk; simpl.
  - eauto.
  - rewrite Ascii.eqb_refl. eauto.
  - rewrite Hp. eauto.
  - rewrite Hp. eapply star_k_complete with (k := fun rest => k rest g); eauto.
  - rewrite <- app_assoc.
    destruct (IH2 s2 k res Hk) as [res2 H2].
    eapply IH1 with (k := fun s1 g1 => rmatch r2 s1 g1 k); eauto.
  - eapply IH with (k := fun rest g1 =>
      k rest ((i, firstn (List.length (s ++ s2) - List.length rest) (s ++ s2)%list) :: g1)).
    rewrite firstn_consumed. eauto.
Qed.

Lemma re_match_sound r s g :
  re_match r s = Some g ->
  exists s1 s2, s = (s1 ++ s2)%list /\ matches r s1 [] g.
Proof.
  intros H. apply rmatch_sound in H as (s1 & s2 & g1 & -> & Hm & Hk).
  injection Hk as <-. eauto.
Qed.

Lemma re_match_complete r s1 s2 g :
  matches r s1 [] g -> exists g', re_match r (s1 ++ s2)%list = Some g'.
Proof.
  intros H. eapply rmatch_complete with (k := fun _ g => Some g); eauto.
Qed.

(** *** The expression of [query_latest] *)

Lemma space_not_rel c : is_space c = true -> is_rel c = false.
Proof. destruct c as [[] [] [] [] [] [] [] []]; vm_compute; congruence. Qed.

Lemma ver_not_space c : is_ver c = true -> is_space c = false.
Proof. destruct c as [[] [] [] [] [] [] [] []]; vm_compute; congruence. Qed.

Lemma split_run_unique (p : ascii -> bool) a :
  forall a' x x' r r',
    forallb p a = true -> forallb p a' = true ->
    p x = false -> p x' = false ->
    (a ++ x :: r = a' ++ x' :: r')%list ->
    a = a' /\ x = x' /\ r = r'.
Proof.
  induction a as [|y a IH]; intros [|y' a'] x x' r r' Ha Ha' Hx Hx' E;
    simpl in *.
  - injection E as -> ->. auto.
  - injection E as E1 E2. subst.
    apply andb_true_iff in Ha' as [Hy _]. congruence.
  - injection E as E1 E2. subst.
    apply andb_true_iff in Ha as [Hy _]. congruence.
  - injection E as Ey E. subst y'.
    apply andb_true_iff in Ha as [_ Ha]. apply andb_true_iff in Ha' as [_ Ha'].
    destruct (IH a' x x' r r' Ha Ha' Hx Hx' E) as (Ea & Ex & Er).
    subst. auto.
Qed.

Lemma matches_lits n :
  forall s g g', matches (lits n) s g g' <-> s = n /\ g' = g.
Proof.
  induction n as [|c n IH]; intros s g g'; simpl; split.
  - inversion 1; auto.
  - intros [-> ->]. constructor.
  - inversion 1 as [| | | |r1 r2 s1 s2 g0 g1 g2 M1 M2|]; subst.
    inversion M1; subst. apply IH in M2 as [-> ->]. auto.
  - intros [-> ->]. change (c :: n) with ([c] ++ n)%list.
    econstructor; [constructor|]. apply IH; auto.
Qed.

Lemma matches_plus p s g g' :
  matches (Plus p) s g g' <-> run_of p s /\ g' = g.
Proof.
  split.
  - inversion 1 as [| | |p0 a s0 g0 Ha Hall| |]; subst.
    split; auto. split; [discriminate|].
    simpl. now rewrite Ha, Hall.
  - intros [[Hne Hall] ->]. destruct s as [|a s]; [congruence|].
    simpl in Hall. apply andb_true_iff in Hall as [Ha Hall]. now constructor.
Qed.

(** The expression accepts exactly the texts of the shape, and its second
    group is the marker. *)
Lemma matches_search_pattern name s g :
  matches (search_pattern name) s [] g ->
  exists m, line_shape name m s /\ group g 2 = Some [m].
Proof.
  unfold search_pattern. intros H.
  repeat match goal with
         | H : matches (Seq _ _) _ _ _ |- _ =>
             inversion H; subst; clear H
         | H : matches (Grp _ _) _ _ _ |- _ =>
             inversion H; subst; clear H
         | H : matches (Lit _) _ _ _ |- _ =>
             inversion H; subst; clear H
         | H : matches (Cls _) _ _ _ |- _ =>
             inversion H; subst; clear H
         | H : matches (Plus _) _ _ _ |- _ =>
             apply matches_plus in H; destruct H as [? ?]; subst
         | H : matches (lits _) _ _ _ |- _ =>
             apply matches_lits in H; destruct H as [? ?]; subst
         end.
  match goal with
  | H : is_dot ?a = true |- _ => exists a
  end.
  split; [|reflexivity].
  unfold line_shape. do 7 eexists.
  split; [simpl; reflexivity|].
  repeat (split; [eassumption|]). eassumption.
Qed.

Lemma search_pattern_matches name m s :
  line_shape name m s -> exists g, matches (search_pattern name) s [] g.
Proof.
  intros (v1 & r1 & w1 & w2 & v2 & r2 & w3 & -> & Hv1 & Hr1 & Hw1 & Hm
          & Hw2 & Hv2 & Hr2 & Hw3).
  eexists. unfold search_pattern.
  econstructor; [constructor; apply matches_lits; split; reflexivity|].
  change ("-"%char :: v1 ++ ?x)%list with (["-"%char] ++ v1 ++ x)%list.
  econstructor; [constructor|].
  econstructor; [apply matches_plus; split; [exact Hv1|reflexivity]|].
  change ("-"%char :: r1 ++ ?x)%list with (["-"%char] ++ r1 ++ x)%list.
  econstructor; [constructor|].
  econstructor; [apply matches_plus; split; [exact Hr1|reflexivity]|].
  econstructor; [apply matches_plus; split; [exact Hw1|reflexivity]|].
  change (m :: w2 ++ ?x)%list with ([m] ++ w2 ++ x)%list.
  econstructor; [constructor; constructor; exact Hm|].
  econstructor; [apply matches_plus; split; [exact Hw2|reflexivity]|].
  econstructor; [apply matches_plus; split; [exact Hv2|reflexivity]|].
  change ("-"%char :: r2 ++ ?x)%list with (["-"%char] ++ r2 ++ x)%list.
  econstructor; [constructor|].
  econstructor; [apply matches_plus; split; [exact Hr2|reflexivity]|].
  apply matches_plus; split; [exact Hw3|reflexivity].
Qed.

(** Two occurrences of the shape that start at the same place agree on
    whether the marker is [<]. *)
Lemma line_shape_older_unique name l l' rest rest' m :
  line_shape name "<" l -> line_shape name m l' ->
  (l ++ rest = l' ++ rest')%list -> m = "<"%char.
Proof.
  intros (v1 & r1 & w1 & w2 & v2 & r2 & w3 & -> & Hv1 & Hr1 & Hw1 & _
          & Hw2 & Hv2 & Hr2 & Hw3)
         (v1' & r1' & w1' & w2' & v2' & r2' & w3' & -> & Hv1' & Hr1' & Hw1'
          & Hm & Hw2' & Hv2' & Hr2' & Hw3') E.
  repeat (rewrite <- ?app_assoc, <- ?app_comm_cons in E).
  apply app_inv_head in E. injection E as E.
  apply split_run_unique with (p := is_ver) in E
    as (_ & _ & E); try tauto; try reflexivity;
    try (apply Hv1); try (apply Hv1').
  destruct Hw1 as [Hne1 Hs1], Hw1' as [Hne1' Hs1'].
  destruct w1 as [|c w1]; [congruence|]. destruct w1' as [|c' w1']; [congruence|].
  pose proof Hs1 as Hc. pose proof Hs1' as Hc'. simpl in Hc, Hc'.
  apply andb_true_iff in Hc as [Hc _]. apply andb_true_iff in Hc' as [Hc' _].
  simpl in E.
  apply split_run_unique with (p := is_rel) in E
    as (_ & Ec & E); try (apply Hr1); try (apply Hr1');
    try (now apply space_not_rel).
  subst c'.
  assert (E' : ((c :: w1) ++ "<"%char :: w2 ++ v2 ++ "-"%char :: r2 ++ w3 ++ rest
               = (c :: w1') ++ m :: w2' ++ v2' ++ "-"%char :: r2' ++ w3' ++ rest')%list)
    by (simpl; now rewrite E).
  clear E. destruct (is_space m) eqn:Hsm.
  - destruct Hv2' as [Hne2 Hall2]. destruct v2' as [|d v2']; [congruence|].
    simpl in Hall2. apply andb_true_iff in Hall2 as [Hd _].
    change ((c :: w1') ++ m :: w2' ++ (d :: v2') ++ ?x)%list
      with ((c :: w1') ++ (m :: w2') ++ d :: v2' ++ x)%list in E'.
    rewrite (app_assoc (c :: w1') (m :: w2')) in E'.
    apply split_run_unique with (p := is_space) in E' as (_ & Ed & _);
      try assumption; try reflexivity.
    + subst d. discriminate Hd.
    + rewrite forallb_app, Hs1'. simpl. rewrite Hsm. apply Hw2'.
    + now apply ver_not_space.
  - apply split_run_unique with (p := is_space) in E' as (_ & Em & _);
      try assumption; try reflexivity. now symmetry.
Qed.

(** A match at the head of the text with [group(2) == "<"], declaratively. *)
Lemma re_match_older name s :
  (exists g, re_match (search_pattern name) s = Some g /\
             group g 2 = Some ["<"%char])
  <-> shape_at name "<" 0 s.
Proof.
  unfold shape_at. simpl. split.
  - intros (g & Hm & Hg).
    apply re_match_sound in Hm as (s1 & s2 & -> & Hm).
    apply matches_search_pattern in Hm as (m & Hs & Hg').
    rewrite Hg in Hg'. injection Hg' as <-. eauto.
  - intros (l & rest & -> & Hs).
    destruct (search_pattern_matches Hs) as [g0 Hm0].
    destruct (re_match_complete rest Hm0) as [g Hm].
    exists g. split; [assumption|].
    destruct (re_match_sound _ _ Hm) as (s1 & s2 & E & Hm').
    apply matches_search_pattern in Hm' as (m & Hs' & ->).
    now rewrite (line_shape_older_unique _ _ Hs Hs' E).
Qed.

(** No match at the head of the text, declaratively. *)
Lemma re_match_none name s :
  re_match (search_pattern name) s = None
  <-> forall m, ~ shape_at name m 0 s.
Proof.
  unfold shape_at. simpl. split.
  - intros Hn m (l & rest & -> & Hs).
    destruct (search_pattern_matches Hs) as [g0 Hm0].
    destruct (re_match_complete rest Hm0) as [g Hm]. congruence.
  - intros Hn. destruct (re_match (search_pattern name) s) as [g|] eqn:Hm; auto.
    apply re_match_sound in Hm as (s1 & s2 & -> & Hm).
    apply matches_search_pattern in Hm as (m & Hs & _).
    exfalso. apply (Hn m). eauto.
Qed.

Lemma shape_at_skipn name m n s :
  shape_at name m n s <-> shape_at name m 0 (skipn n s).
Proof. unfold shape_at. simpl. tauto. Qed.

(** [re.search] returns the match at the first position that has one. *)
Lemma re_search_spec r s :
  match re_search r s with
  | Some g =>
      exists n, re_match r (skipn n s) = Some g /\
                forall j, (j < n)%nat -> re_match r (skipn j s) = None
  | None => forall n, re_match r (skipn n s) = None
  end.
Proof.
  induction s as [|c s IH]; simpl.
  - destruct (re_match r []) as [g|] eqn:E.
    + exists 0%nat. split; [assumption|]. intros j Hj. lia.
    + intros n. now rewrite skipn_nil.
  - destruct (re_match r (c :: s)) as [g|] eqn:E.
    + exists 0%nat. split; [assumption|]. intros j Hj. lia.
    + destruct (re_search r s) as [g|].
      * destruct IH as (n & Hn & Hlt). exists (S n). split; [assumption|].
        intros [|j] Hj; simpl; [assumption|]. apply Hlt. lia.
      * intros [|n]; simpl; auto.
Qed.

(** [re.search(search_pattern, stdout)] followed by
    [match.group(2) == "<"], declaratively. *)
Lemma re_search_older name s :
  match re_search (search_pattern name) s with
  | Some g => group g 2 = Some ["<"%char]
  | None => False
  end <-> first_marker_older name s.
Proof.
  unfold first_marker_older.
  pose proof (re_search_spec (search_pattern name) s) as Hs.
  destruct (re_search (search_pattern name) s) as [g|].
  - destruct Hs as (n & Hn & Hlt). split.
    + intros Hg. exists n. split.
      * apply shape_at_skipn, re_match_older. eauto.
      * intros j m Hj Hsh. apply shape_at_skipn in Hsh.
        apply Hlt in Hj. apply (proj1 (re_match_none _ _) Hj m Hsh).
    + intros (n' & Hsh & Hmin).
      assert (n' = n) as ->.
      { destruct (Nat.lt_trichotomy n' n) as [Hl|[He|Hl]]; auto; exfalso.
        - apply Hlt in Hl. apply shape_at_skipn in Hsh.
          apply (proj1 (re_match_none _ _) Hl _ Hsh).
        - apply re_match_sound in Hn as (s1 & s2 & E & Hm).
          apply matches_search_pattern in Hm as (m & Hs' & _).
          apply (Hmin n m Hl). exists s1, s2. auto. }
      apply shape_at_skipn, re_match_older in Hsh as (g' & Hg' & Hgrp).
      congruence.
  - split; [tauto|]. intros (n & Hsh & _).
    apply shape_at_skipn in Hsh.
    apply (proj1 (re_match_none _ _) (Hs n) _ Hsh).
Qed.

(* ================================================================== *)
(** ** The functions of the module, call by call *)

Lemma run_command_eq tag cmd s :
  run_command tag cmd s = (Ret (fst (backend (world s) cmd)), call_state tag cmd s).
Proof.
  unfold run_command, call_state, call_event.
  destruct (backend (world s) cmd) as [[[rc out] err] w]. reflexivity.
Qed.

Lemma query_package_eq module n s :
  query_package module n s =
  (Ret (installed_at (world s) n), call_state (TInfo n) (info_cmd n) s).
Proof.
  unfold query_package, bind, installed_at. fold (info_cmd n).
  rewrite run_command_eq. unfold call_event.
  destruct (fst (backend (world s) (info_cmd n))) as [[rc out] err]. simpl.
  destruct (rc =? 0); reflexivity.
Qed.

Lemma query_latest_eq module n s :
  query_latest module n s =
  (match older_at (world s) n with
   | ReError => Stop Raised
   | m => Ret (negb (says_older m))
   end, call_state (TVersion n) (version_cmd n) s).
Proof.
  unfold query_latest, bind, older_at. fold (version_cmd n).
  rewrite run_command_eq. unfold call_event.
  destruct (fst (backend (world s) (version_cmd n))) as [[rc out] err]. simpl.
  destruct (search n out) as [| |[[|c [|c' l]]|]]; try reflexivity.
  simpl. destruct (Ascii.eqb c "<"); reflexivity.
Qed.

(** *** Which calls a computation can make *)

Lemma emits_ret A P (a : A) : emits P (ret a).
Proof. intros s. exists []. simpl. now rewrite app_nil_r. Qed.

Lemma emits_stop A P (o : Outcome) : emits P (fun s => (@Stop A o, s)).
Proof. intros s. exists []. simpl. now rewrite app_nil_r. Qed.

Lemma emits_bind A B P (m : M A) (f : A -> M B) :
  emits P m -> (forall a, emits P (f a)) -> emits P (bind m f).
Proof.
  intros Hm Hf s. unfold bind. destruct (Hm s) as (evs & Ht & Hall).
  destruct (m s) as [[a|o] s1]; simpl in *.
  - destruct (Hf a s1) as (evs' & Ht' & Hall').
    exists (evs ++ evs')%list. rewrite Ht', Ht, app_assoc, forallb_app, Hall, Hall'.
    auto.
  - eauto.
Qed.

Lemma emits_run_command P tag cmd : P tag = true -> emits P (run_command tag cmd).
Proof.
  intros HP s. rewrite run_command_eq.
  exists [call_event tag cmd (world s)]. simpl. split; [reflexivity|].
  unfold call_event. destruct (fst (backend (world s) cmd)) as [[rc out] err].
  simpl. now rewrite HP.
Qed.

Lemma emits_when P c m : emits P m -> emits P (when c m).
Proof. destruct c; simpl; auto using emits_ret. Qed.

Lemma emits_for_each A B P (body : A -> B -> M B) l :
  (forall x acc, emits P (body x acc)) -> forall acc, emits P (for_each l acc body).
Proof.
  intros Hb. induction l as [|x l IH]; intros acc; simpl.
  - apply emits_ret.
  - apply emits_bind; auto.
Qed.

Lemma emits_weaken A (P Q : Tag -> bool) (m : M A) :
  (forall t, P t = true -> Q t = true) -> emits P m -> emits Q m.
Proof.
  intros HPQ Hm s. destruct (Hm s) as (evs & Ht & Hall). exists evs.
  split; [assumption|]. rewrite forallb_forall in *. auto.
Qed.

Lemma emits_query_package P module n :
  P (TInfo n) = true -> emits P (query_package module n).
Proof.
  intros HP. unfold query_package. apply emits_bind.
  - now apply emits_run_command.
  - intros [[rc out] err]. destruct (rc =? 0); apply emits_ret.
Qed.

Lemma emits_query_latest P module n :
  P (TVersion n) = true -> emits P (query_latest module n).
Proof.
  intros HP. unfold query_latest. apply emits_bind.
  - now apply emits_run_command.
  - intros [[rc out] err].
    destruct (search n out) as [| |g]; [apply emits_stop| |];
      match goal with |- context [if ?b then _ else _] => destruct b end;
      apply emits_ret.
Qed.

(** *** The two loops *)

Lemma call_event_tag tag cmd w : ev_tag (call_event tag cmd w) = tag.
Proof.
  unfold call_event. now destruct (fst (backend w cmd)) as [[rc out] err].
Qed.

Lemma call_event_cmd tag cmd w : ev_cmd (call_event tag cmd w) = cmd.
Proof.
  unfold call_event. now destruct (fst (backend w cmd)) as [[rc out] err].
Qed.

Lemma remove_body_eq module n inst s :
  remove_packages_body module n inst s =
  (Ret (if installed_at (world s) n then (inst ++ [n])%list else inst),
   call_state (TInfo n) (info_cmd n) s).
Proof.
  unfold remove_packages_body, bind. rewrite query_package_eq.
  now destruct (installed_at (world s) n).
Qed.

Lemma install_body_eq module st n un up s :
  install_packages_body module st n (un, up) s =
  let s1 := call_state (TInfo n) (info_cmd n) s in
  if negb (installed_at (world s) n) then (Ret ((un ++ [n])%list, up), s1)
  else if State_eqb st latest then
    (match older_at (world s1) n with
     | ReError => Stop Raised
     | m => Ret (un, up || says_older m)
     end, call_state (TVersion n) (version_cmd n) s1)
  else (Ret (un, up), s1).
Proof.
  unfold install_packages_body, bind. rewrite query_package_eq.
  destruct (installed_at (world s) n); simpl; [|reflexivity].
  destruct (State_eqb st latest); [|reflexivity].
  rewrite query_latest_eq.
  destruct (older_at _ n) as [| |g] eqn:E; try reflexivity.
  - unfold ret. simpl. now rewrite orb_false_r.
  - destruct g as [[|c [|c' l]]|]; simpl; unfold ret;
      rewrite ?orb_false_r; try reflexivity.
    destruct (Ascii.eqb c "<"); simpl; now rewrite ?orb_true_r, ?orb_false_r.
Qed.

Lemma for_each_cons A B (body : A -> B -> M B) x l acc s :
  for_each (x :: l) acc body s =
  match body x acc s with
  | (Ret a, s') => for_each l a body s'
  | (Stop o, s') => (Stop o, s')
  end.
Proof. reflexivity. Qed.

(** The loop of [remove_packages]: one installed-query per name, in the
    order of the names; the names reported installed are collected. *)
Lemma remove_loop_spec module names :
  forall inst s,
  exists evs s',
    for_each names inst (remove_packages_body module) s
      = (Ret (inst ++ reported_installed evs)%list, s') /\
    trace s' = (trace s ++ evs)%list /\
    map ev_tag evs = map TInfo names.
Proof.
  induction names as [|n names IH]; intros inst s; simpl.
  - exists [], s. unfold ret. simpl. now rewrite !app_nil_r.
  - unfold bind at 1. rewrite remove_body_eq.
    match goal with
    | |- context [for_each names ?a _ ?s1] =>
        destruct (IH a s1) as (evs & s' & Hrun & Htr & Htags)
    end.
    exists (call_event (TInfo n) (info_cmd n) (world s) :: evs), s'.
    rewrite Hrun, Htr. simpl. rewrite call_event_tag, Htags, <- app_assoc.
    repeat split. unfold reported_installed, installed_at. simpl.
    rewrite ?call_event_tag.
    destruct (ev_rc _ =? 0); simpl; now rewrite <- ?app_assoc.
Qed.

Lemma install_step_missing module st n names un up s :
  installed_at (world s) n = false ->
  for_each (n :: names) (un, up) (install_packages_body module st) s =
  for_each names ((un ++ [n])%list, up) (install_packages_body module st)
           (call_state (TInfo n) (info_cmd n) s).
Proof.
  intros H. rewrite for_each_cons, install_body_eq. cbv zeta. now rewrite H.
Qed.

Lemma install_step_present module st n names un up s :
  installed_at (world s) n = true -> State_eqb st latest = false ->
  for_each (n :: names) (un, up) (install_packages_body module st) s =
  for_each names (un, up) (install_packages_body module st)
           (call_state (TInfo n) (info_cmd n) s).
Proof.
  intros H H'. rewrite for_each_cons, install_body_eq. cbv zeta.
  now rewrite H, H'.
Qed.

Lemma install_step_latest module st n names un up s :
  installed_at (world s) n = true -> State_eqb st latest = true ->
  for_each (n :: names) (un, up) (install_packages_body module st) s =
  let s1 := call_state (TInfo n) (info_cmd n) s in
  let s2 := call_state (TVersion n) (version_cmd n) s1 in
  match older_at (world s1) n with
  | ReError => (Stop Raised, s2)
  | m => for_each names (un, up || says_older m)
                  (install_packages_body module st) s2
  end.
Proof.
  intros H H'. rewrite for_each_cons, install_body_eq. cbv zeta.
  rewrite H, H'. cbn [negb].
  now destruct (older_at _ n).
Qed.

Lemma reported_missing_cons e tr :
  reported_missing (e :: tr) =
  (match ev_tag e with
   | TInfo n => if ev_rc e =? 0 then [] else [n]
   | _ => []
   end ++ reported_missing tr)%list.
Proof. reflexivity. Qed.

Lemma queried_cons e tr :
  queried (e :: tr) =
  (match ev_tag e with TInfo n => [n] | _ => [] end ++ queried tr)%list.
Proof. reflexivity. Qed.

Lemma reported_older_cons e tr :
  reported_older (e :: tr) =
  match ev_tag e with
  | TVersion n => says_older (search n (ev_out e))
  | _ => false
  end || reported_older tr.
Proof. reflexivity. Qed.

(** The loop of [install_packages]: only queries; when it completes, every
    name was asked about once, in order, the names not reported installed
    are collected, and the upgrade flag is raised exactly when some
    listing said "older". *)
Lemma install_loop_spec module st names :
  forall un up s,
  exists evs,
    trace (snd (for_each names (un, up) (install_packages_body module st) s))
      = (trace s ++ evs)%list /\
    forallb (fun e => is_query (ev_tag e)) evs = true /\
    match fst (for_each names (un, up) (install_packages_body module st) s) with
    | Ret (un', up') =>
        un' = (un ++ reported_missing evs)%list /\
        up' = up || reported_older evs /\
        queried evs = names
    | Stop o => o = Raised
    end.
Proof.
  induction names as [|n names IH]; intros un up s.
  - exists []. unfold ret. simpl. now rewrite !app_nil_r, orb_false_r.
  - pose (e1 := call_event (TInfo n) (info_cmd n) (world s)).
    assert (Hrc : installed_at (world s) n = (ev_rc e1 =? 0)) by reflexivity.
    assert (Ht1 : ev_tag e1 = TInfo n) by apply call_event_tag.
    destruct (installed_at (world s) n) eqn:Hi;
      [destruct (State_eqb st latest) eqn:Hl|].
    + rewrite install_step_latest by assumption. cbv zeta.
      pose (s1 := call_state (TInfo n) (info_cmd n) s).
      pose (e2 := call_event (TVersion n) (version_cmd n) (world s1)).
      assert (Ht2 : ev_tag e2 = TVersion n) by apply call_event_tag.
      assert (Ho : older_at (world s1) n = search n (ev_out e2)) by reflexivity.
      fold s1 in Ho |- *.
      assert (Hstep : forall m, older_at (world s1) n = m -> m <> ReError ->
        exists evs : list Event,
          trace (snd (for_each names (un, up || says_older m)
                        (install_packages_body module st)
                        (call_state (TVersion n) (version_cmd n) s1)))
            = (trace s ++ evs)%list /\
          forallb (fun e => is_query (ev_tag e)) evs = true /\
          match fst (for_each names (un, up || says_older m)
                        (install_packages_body module st)
                        (call_state (TVersion n) (version_cmd n) s1)) with
          | Ret (un', up') =>
              un' = (un ++ reported_missing evs)%list /\
              up' = up || reported_older evs /\
              queried evs = n :: names
          | Stop o => o = Raised
          end).
      { intros m Hm _.
        destruct (IH un (up || says_older m)
                     (call_state (TVersion n) (version_cmd n) s1))
          as (evs & Htr & Hq & Hres).
        exists (e1 :: e2 :: evs). rewrite Htr. split; [|split].
        - simpl. now rewrite <- !app_assoc.
        - simpl. now rewrite Ht1, Ht2, Hq.
        - destruct (fst _) as [[un' up']|o]; [|assumption].
          destruct Hres as (-> & -> & <-).
          rewrite !reported_missing_cons, !reported_older_cons, !queried_cons.
          rewrite Ht1, Ht2, <- Hrc, <- Ho, Hm. simpl.
          now rewrite orb_assoc. }
      destruct (older_at (world s1) n) as [| |g] eqn:E.
      * exists [e1; e2]. simpl. rewrite Ht1, Ht2, <- app_assoc. auto.
      * apply Hstep; [reflexivity|discriminate].
      * apply Hstep; [reflexivity|discriminate].
    + rewrite install_step_present by assumption.
      destruct (IH un up (call_state (TInfo n) (info_cmd n) s))
        as (evs & Htr & Hq & Hres).
      exists (e1 :: evs). rewrite Htr. split; [|split].
      * simpl. now rewrite <- !app_assoc.
      * simpl. now rewrite Ht1, Hq.
      * destruct (fst _) as [[un' up']|o]; [|assumption].
        destruct Hres as (-> & -> & <-).
        rewrite !reported_missing_cons, !reported_older_cons, !queried_cons.
        rewrite Ht1, <- Hrc. simpl. auto.
    + rewrite install_step_missing by assumption.
      destruct (IH (un ++ [n])%list up (call_state (TInfo n) (info_cmd n) s))
        as (evs & Htr & Hq & Hres).
      exists (e1 :: evs). rewrite Htr. split; [|split].
      * simpl. now rewrite <- !app_assoc.
      * simpl. now rewrite Ht1, Hq.
      * destruct (fst _) as [[un' up']|o]; [|assumption].
        destruct Hres as (-> & -> & <-).
        rewrite !reported_missing_cons, !reported_older_cons, !queried_cons.
        rewrite Ht1, <- Hrc. simpl. now rewrite <- app_assoc.
Qed.

(** *** The two reconciliation functions, in terms of their loops *)

Lemma install_packages_eq module names st s :
  install_packages module (Some names) st s =
  match for_each names ([], false) (install_packages_body module st) s with
  | (Stop o, s') => (Stop o, s')
  | (Ret (un, up), s') =>
      if is_empty un && negb up
      then (Stop (Exited false "package(s) already installed"), s')
      else
        (Stop (if ev_rc (call_event (TAdd un up) (add_cmd module up un)
                                    (world s')) =? 0
               then Exited true ("installed " ++ join un ++ " package(s)")
               else Failed ("failed to install " ++ join un)),
         call_state (TAdd un up) (add_cmd module up un) s')
  end.
Proof.
  unfold install_packages, bind.
  destruct (for_each names _ _ s) as [[[un up]|o] s']; [|reflexivity].
  destruct (is_empty un && negb up); [reflexivity|].
  cbn [when ret].
  replace (if up then _ else _) with (add_cmd module up un)
    by (unfold add_cmd; destruct up, (check_mode module); reflexivity).
  rewrite run_command_eq. unfold call_event.
  destruct (fst (backend (world s') _)) as [[rc out] err]. simpl.
  destruct (rc =? 0); reflexivity.
Qed.

Lemma remove_packages_eq module names s :
  remove_packages module (Some names) s =
  match for_each names [] (remove_packages_body module) s with
  | (Stop o, s') => (Stop o, s')
  | (Ret inst, s') =>
      if is_empty inst
      then (Stop (Exited false "package(s) already removed"), s')
      else
        (Stop (if ev_rc (call_event (TDel inst) (del_cmd module inst)
                                    (world s')) =? 0
               then Exited true ("removed " ++ join inst ++ " package(s)")
               else Failed ("failed to remove " ++ join inst ++ " package(s)")),
         call_state (TDel inst) (del_cmd module inst) s')
  end.
Proof.
  unfold remove_packages, bind.
  destruct (for_each names _ _ s) as [[inst|o] s']; [|reflexivity].
  destruct (is_empty inst); [reflexivity|].
  cbn [when ret].
  replace (if check_mode module then _ else _) with (del_cmd module inst)
    by (unfold del_cmd; destruct (check_mode module); reflexivity).
  rewrite run_command_eq. unfold call_event.
  destruct (fst (backend (world s') _)) as [[rc out] err]. simpl.
  destruct (rc =? 0); reflexivity.
Qed.

Lemma queried_of_tags evs names :
  map ev_tag evs = map TInfo names -> queried evs = names.
Proof.
  revert names. induction evs as [|e evs IH]; intros [|n names] H;
    try discriminate; [reflexivity|].
  simpl in H. injection H as He H. rewrite queried_cons, He. simpl.
  now rewrite (IH names).
Qed.

Lemma flat_map_snoc A B (f : A -> list B) l x :
  flat_map f (l ++ [x]) = (flat_map f l ++ f x)%list.
Proof. rewrite flat_map_app. simpl. now rewrite app_nil_r. Qed.

(** *** What the trace says about the names *)

Lemma reported_installed_cons e tr :
  reported_installed (e :: tr) =
  (match ev_tag e with
   | TInfo n => if ev_rc e =? 0 then [n] else []
   | _ => []
   end ++ reported_installed tr)%list.
Proof. reflexivity. Qed.

Ltac by_event_cases :=
  match goal with
  | e : Event |- _ =>
      destruct (ev_tag e) eqn:?; simpl; auto;
      destruct (ev_rc e =? 0) eqn:?; simpl; auto
  end.

Lemma reported_missing_subseq tr : subseq (reported_missing tr) (queried tr).
Proof.
  induction tr as [|e tr IH]; [constructor|].
  rewrite reported_missing_cons, queried_cons.
  by_event_cases; now constructor.
Qed.

Lemma reported_installed_subseq tr : subseq (reported_installed tr) (queried tr).
Proof.
  induction tr as [|e tr IH]; [constructor|].
  rewrite reported_installed_cons, queried_cons.
  by_event_cases; now constructor.
Qed.

Lemma reported_missing_count tr n :
  (forall q, In q tr -> ev_tag q = TInfo n -> ev_rc q <> 0) ->
  count_occ string_dec (reported_missing tr) n
  = count_occ string_dec (queried tr) n.
Proof.
  induction tr as [|e tr IH]; intros H; [reflexivity|].
  rewrite reported_missing_cons, queried_cons.
  assert (IH' := IH (fun q Hq => H q (or_intror Hq))).
  assert (He := H e (or_introl eq_refl)).
  destruct (ev_tag e) as [|m|m| | |] eqn:Ht; simpl; auto.
  destruct (ev_rc e =? 0) eqn:Hrc; simpl;
    destruct (string_dec m n) as [->|Hne]; auto.
  apply Z.eqb_eq in Hrc. now destruct (He eq_refl).
Qed.

Lemma reported_installed_count tr n :
  (forall q, In q tr -> ev_tag q = TInfo n -> ev_rc q = 0) ->
  count_occ string_dec (reported_installed tr) n
  = count_occ string_dec (queried tr) n.
Proof.
  induction tr as [|e tr IH]; intros H; [reflexivity|].
  rewrite reported_installed_cons, queried_cons.
  assert (IH' := IH (fun q Hq => H q (or_intror Hq))).
  assert (He := H e (or_introl eq_refl)).
  destruct (ev_tag e) as [|m|m| | |] eqn:Ht; simpl; auto.
  destruct (ev_rc e =? 0) eqn:Hrc; simpl;
    destruct (string_dec m n) as [->|Hne]; auto.
  apply Z.eqb_neq in Hrc. now destruct (Hrc (He eq_refl)).
Qed.

Lemma queries_have_no_batch evs :
  forallb (fun e => is_query (ev_tag e)) evs = true ->
  forall e, In e evs -> is_transaction (ev_tag e) = false.
Proof.
  intros H e He. rewrite forallb_forall in H. specialize (H e He).
  now destruct (ev_tag e).
Qed.

(** The whole of [install_packages], from an arbitrary point of a run. *)
Lemma install_packages_spec module names st s :
  exists evs,
    forallb (fun e => is_query (ev_tag e)) evs = true /\
    (let r := install_packages module (Some names) st s in
     (fst r = Stop Raised /\ trace (snd r) = (trace s ++ evs)%list) \/
     (queried evs = names /\
      let un := reported_missing evs in
      let up := reported_older evs in
      if is_empty un && negb up then
        fst r = Stop (Exited false "package(s) already installed") /\
        trace (snd r) = (trace s ++ evs)%list
      else
        exists e,
          ev_tag e = TAdd un up /\ ev_cmd e = add_cmd module up un /\
          trace (snd r) = (trace s ++ evs ++ [e])%list /\
          fst r = Stop (if ev_rc e =? 0
                        then Exited true ("installed " ++ join un ++ " package(s)")
                        else Failed ("failed to install " ++ join un)))).
Proof.
  destruct (install_loop_spec module st names [] false s)
    as (evs & Htr & Hq & Hres).
  exists evs. split; [assumption|]. cbv zeta.
  rewrite install_packages_eq.
  destruct (for_each names _ _ s) as [[[un up]|o] s']; simpl in *.
  - right. destruct Hres as (-> & -> & Hn). split; [assumption|].
    destruct (is_empty _ && negb _); simpl; [auto|].
    eexists. rewrite call_event_tag, call_event_cmd, Htr, <- app_assoc.
    repeat split.
  - left. subst o. auto.
Qed.

(** The whole of [remove_packages], from an arbitrary point of a run. *)
Lemma remove_packages_spec module names s :
  exists evs,
    map ev_tag evs = map TInfo names /\
    let r := remove_packages module (Some names) s in
    let inst := reported_installed evs in
    if is_empty inst then
      fst r = Stop (Exited false "package(s) already removed") /\
      trace (snd r) = (trace s ++ evs)%list
    else
      exists e,
        ev_tag e = TDel inst /\ ev_cmd e = del_cmd module inst /\
        trace (snd r) = (trace s ++ evs ++ [e])%list /\
        fst r = Stop (if ev_rc e =? 0
                      then Exited true ("removed " ++ join inst ++ " package(s)")
                      else Failed ("failed to remove " ++ join inst
                                                       ++ " package(s)")).
Proof.
  destruct (remove_loop_spec module names [] s) as (evs & s' & Hrun & Htr & Ht).
  exists evs. split; [assumption|]. cbv zeta.
  rewrite remove_packages_eq, Hrun. simpl.
  destruct (is_empty _); simpl; [auto|].
  eexists. rewrite call_event_tag, call_event_cmd, Htr, <- app_assoc.
  repeat split.
Qed.

(* ================================================================== *)
(** ** Properties of the classification *)



(* ================================================================== *)
(** ** Properties of the two reconciliation functions *)

(** C8.  [remove_packages] asks the installed-query once for every name,
    in order.  The names to remove are exactly the names the backend
    reported installed.  When there are none, the run ends with
    [changed=False] and "package(s) already removed" after the queries
    alone.  Otherwise the queries are followed by a single [apk del]
    carrying those names, and the run ends with [changed=True] when that
    call succeeds and with [fail_json] when it does not. *)
Theorem remove_packages_absent module names w :
  let r := run (remove_packages module (Some names)) w in
  let batch := reported_installed (calls r) in
  queried (calls r) = names /\
  if is_empty batch then
    outcome r = Some (Exited false "package(s) already removed") /\
    map ev_tag (calls r) = map TInfo names
  else
    exists qs e,
      calls r = (qs ++ [e])%list /\
      map ev_tag qs = map TInfo names /\
      ev_tag e = TDel batch /\
      ev_cmd e = del_cmd module batch /\
      outcome r =
        Some (if ev_rc e =? 0
              then Exited true ("removed " ++ join batch ++ " package(s)")
              else Failed ("failed to remove " ++ join batch ++ " package(s)")).
Proof.
  cbv zeta. unfold run, calls, outcome.
  destruct (remove_packages_spec module names {| world := w; trace := [] |})
    as (evs & Ht & H). cbv zeta in H. cbn [trace app] in H.
  destruct (is_empty (reported_installed evs)) eqn:He.
  - destruct H as [Hf Htr]. rewrite Htr, Hf, He.
    auto using queried_of_tags.
  - destruct H as (e & Htag & Hcmd & Htr & Hf). rewrite Htr, Hf.
    assert (Hb : reported_installed (evs ++ [e]) = reported_installed evs).
    { unfold reported_installed. rewrite flat_map_snoc, Htag. apply app_nil_r. }
    rewrite Hb, He. split.
    + unfold queried. rewrite flat_map_snoc, Htag, app_nil_r.
      now apply queried_of_tags.
    + exists evs, e. auto.
Qed.

(* ================================================================== *)
(** ** Properties of a whole run *)

Lemma emits_update_package_db P module :
  P TUpdate = true -> emits P (update_package_db module).
Proof.
  intros HP. unfold update_package_db. apply emits_bind.
  - now apply emits_run_command.
  - intros [[rc out] err]. destruct (rc =? 0); [apply emits_ret|apply emits_stop].
Qed.

Lemma emits_upgrade_packages P module :
  P TUpgrade = true -> emits P (upgrade_packages module).
Proof.
  intros HP. unfold upgrade_packages. apply emits_bind.
  - now apply emits_run_command.
  - intros [[rc out] err].
    repeat (apply emits_bind; [apply emits_when, emits_stop|intros _]).
    apply emits_stop.
Qed.

Lemma emits_install_packages P module names st :
  (forall t, not_del t = true -> P t = true) ->
  emits P (install_packages module names st).
Proof.
  intros HP. assert (Hq : forall t, is_query t = true -> P t = true)
    by (intros []; auto; discriminate).
  unfold install_packages. destruct names as [names|]; [|apply emits_stop].
  apply emits_bind.
  - apply emits_for_each. intros n [un up]. unfold install_packages_body.
    apply emits_bind; [apply emits_query_package; auto|].
    intros inst. destruct (negb inst); [apply emits_ret|].
    destruct (State_eqb st latest); [|apply emits_ret].
    apply emits_bind; [apply emits_query_latest; auto|].
    intros l. destruct (negb l); apply emits_ret.
  - intros [un up].
    apply emits_bind; [apply emits_when, emits_stop|intros _].
    apply emits_bind; [apply emits_run_command; auto|].
    intros [[rc out] err].
    apply emits_bind; [apply emits_when, emits_stop|intros _].
    apply emits_stop.
Qed.

Lemma emits_remove_packages P module names :
  (forall t, not_add t = true -> P t = true) ->
  emits P (remove_packages module names).
Proof.
  intros HP. unfold remove_packages.
  destruct names as [names|]; [|apply emits_stop].
  apply emits_bind.
  - apply emits_for_each. intros n inst. unfold remove_packages_body.
    apply emits_bind; [apply emits_query_package; auto|].
    intros b. destruct b; apply emits_ret.
  - intros inst.
    apply emits_bind; [apply emits_when, emits_stop|intros _].
    apply emits_bind; [apply emits_run_command; auto|].
    intros [[rc out] err].
    apply emits_bind; [apply emits_when, emits_stop|intros _].
    apply emits_stop.
Qed.

(** A run submits names for installation or for removal, never both. *)
Lemma emits_main module :
  emits (if State_eqb (normalize (state (params module))) absent
         then not_add else not_del) (main module).
Proof.
  unfold main. apply emits_bind.
  { intros s. exists []. simpl. now rewrite app_nil_r. }
  intros ex. apply emits_bind; [apply emits_when, emits_stop|intros _].
  cbv zeta. apply emits_bind.
  { apply emits_when. apply emits_bind.
    - apply emits_update_package_db. now destruct (State_eqb _ _).
    - intros _. apply emits_when, emits_stop. }
  intros _. apply emits_bind.
  { apply emits_when. apply emits_upgrade_packages. now destruct (State_eqb _ _). }
  intros _.
  destruct (normalize (state (params module))); cbn [State_eqb];
    auto using emits_install_packages, emits_remove_packages, emits_ret.
Qed.

Lemma no_del_no_remove_batch evs :
  forallb (fun e => not_del (ev_tag e)) evs = true -> remove_batch evs = [].
Proof.
  induction evs as [|e evs IH]; [reflexivity|]. simpl.
  intros H. apply andb_true_iff in H as [He H]. unfold remove_batch in *.
  simpl. rewrite (IH H). now destruct (ev_tag e).
Qed.

Lemma no_add_no_install_batch evs :
  forallb (fun e => not_add (ev_tag e)) evs = true -> install_batch evs = [].
Proof.
  induction evs as [|e evs IH]; [reflexivity|]. simpl.
  intros H. apply andb_true_iff in H as [He H]. unfold install_batch in *.
  simpl. rewrite (IH H). now destruct (ev_tag e).
Qed.

(** C9.  In every run, no name is both among the names submitted for
    installation and among the names submitted for removal. *)
Theorem batches_disjoint module w n :
  let r := run (main module) w in
  ~ (In n (install_batch (calls r)) /\ In n (remove_batch (calls r))).
Proof.
  cbv zeta. unfold run, calls.
  destruct (emits_main module {| world := w; trace := [] |}) as (evs & Htr & Hall).
  rewrite Htr. cbn [trace app]. intros [Hi Hr].
  destruct (State_eqb _ _).
  - now rewrite (no_add_no_install_batch _ Hall) in Hi.
  - now rewrite (no_del_no_remove_batch _ Hall) in Hr.
Qed.

(** *** [main], step by step *)

Lemma upgrade_packages_eq module s :
  let cmd := if check_mode module then "apk upgrade --simulate"
             else "apk upgrade" in
  let e := call_event TUpgrade cmd (world s) in
  upgrade_packages module s =
  (Stop (if negb (ev_rc e =? 0) then Failed "failed to upgrade packages"
         else if starts_with_OK (ev_out e)
              then Exited false "packages already upgraded"
              else Exited true "upgraded packages"),
   call_state TUpgrade cmd s).
Proof.
  cbv zeta. unfold upgrade_packages, bind. rewrite run_command_eq.
  unfold call_event.
  destruct (fst (backend (world s) _)) as [[rc out] err]. simpl.
  destruct (rc =? 0); simpl; [|reflexivity].
  destruct (starts_with_OK out); reflexivity.
Qed.

Lemma update_package_db_eq module s :
  update_package_db module s =
  (if ev_rc (call_event TUpdate "apk update" (world s)) =? 0
   then Ret true else Stop (Failed "could not update package db"),
   call_state TUpdate "apk update" s).
Proof.
  unfold update_package_db, bind. rewrite run_command_eq. unfold call_event.
  destruct (fst (backend (world s) _)) as [[rc out] err]. simpl.
  destruct (rc =? 0); reflexivity.
Qed.

(** What is left of [main] once the refresh is behind: upgrade-all if
    requested, else the reconciliation for the state. *)
Lemma main_rest_eq module s :
  (when (upgrade (params module)) (upgrade_packages module) ;;;
   match normalize (state (params module)) with
   | present | latest =>
       install_packages module (name (params module))
                        (normalize (state (params module)))
   | absent => remove_packages module (name (params module))
   | _ => ret tt
   end) s =
  if upgrade (params module) then upgrade_packages module s
  else
    match normalize (state (params module)) with
    | absent => remove_packages module (name (params module)) s
    | st => install_packages module (name (params module)) st s
    end.
Proof.
  unfold bind. destruct (upgrade (params module)); cbn [when].
  - pose proof (upgrade_packages_eq module s) as H. cbv zeta in H.
    now rewrite H.
  - unfold ret. now destruct (state (params module)).
Qed.

Lemma main_eq module s :
  main module s =
  if negb (path_exists (world s) APK_PATH)
  then (Stop (Failed ("cannot find apk, looking for " ++ APK_PATH)), s)
  else
    let rest s' :=
      if upgrade (params module) then upgrade_packages module s'
      else
        match normalize (state (params module)) with
        | absent => remove_packages module (name (params module)) s'
        | st => install_packages module (name (params module)) st s'
        end in
    if update_cache (params module) then
      let s1 := call_state TUpdate "apk update" s in
      if ev_rc (call_event TUpdate "apk update" (world s)) =? 0 then
        if no_names (name (params module))
        then (Stop (Exited true "updated repository indexes"), s1)
        else rest s1
      else (Stop (Failed "could not update package db"), s1)
    else rest s.
Proof.
  unfold main. unfold bind at 1. cbv zeta.
  destruct (path_exists (world s) APK_PATH); cbn [negb when];
    [|reflexivity].
  unfold bind at 1. unfold ret at 1. unfold bind at 1.
  destruct (update_cache (params module)); cbn [when].
  - unfold bind at 1. rewrite update_package_db_eq.
    destruct (ev_rc _ =? 0); [|reflexivity].
    destruct (no_names (name (params module))); cbn [when]; [reflexivity|].
    unfold ret at 1. apply main_rest_eq.
  - unfold ret at 1. apply main_rest_eq.
Qed.

(** *** Runs against a reconciled system *)

Lemma normalize_cases st :
  normalize st = present \/ normalize st = absent \/ normalize st = latest.
Proof. destruct st; simpl; auto. Qed.




(* ================================================================== *)
(** ** The update query *)

Lemma says_older_iff g :
  says_older (Match g) = true <-> g = Some ["<"%char].
Proof.
  destruct g as [[|c [|c' l]]|]; simpl; split; try discriminate.
  - intros H. apply Ascii.eqb_eq in H. now subst.
  - intros H. injection H as ->. reflexivity.
Qed.

(** C5, as the code has it.  For a name made of characters the
    expression syntax reads literally, [query_latest] reports an update
    (returns [False]) exactly when, reading the listing from the left, the
    first place where the text [name-VER-REL  m  VER-REL ] occurs -- at
    any offset, inside a line as well as at its start -- has the marker
    [<]; in every other case, a listing without such a text included, it
    reports none (returns [True]). *)
Theorem query_latest_first_occurrence module n s :
  plain (list_ascii_of_string n) = true ->
  let out := ev_out (call_event (TVersion n) (version_cmd n) (world s)) in
  let older := first_marker_older (list_ascii_of_string n)
                                  (list_ascii_of_string out) in
  (fst (query_latest module n s) = Ret false <-> older) /\
  (fst (query_latest module n s) = Ret true <-> ~ older).
Proof.
  intros Hplain. cbv zeta. rewrite query_latest_eq. unfold older_at, search.
  rewrite Hplain. cbn [fst].
  pose proof (re_search_older (list_ascii_of_string n)
    (list_ascii_of_string
       (ev_out (call_event (TVersion n) (version_cmd n) (world s))))) as H.
  destruct (re_search _ _) as [g|].
  - pose proof (says_older_iff (group g 2)) as Hs.
    destruct (says_older (Match (group g 2))); cbn [negb].
    + assert (Ho : first_marker_older (list_ascii_of_string n)
        (list_ascii_of_string
           (ev_out (call_event (TVersion n) (version_cmd n) (world s)))))
        by (apply H, Hs; reflexivity).
      split; split; intros; auto; try discriminate; contradiction.
    + assert (Ho : ~ first_marker_older (list_ascii_of_string n)
        (list_ascii_of_string
           (ev_out (call_event (TVersion n) (version_cmd n) (world s)))))
        by (intros Ho; apply H, Hs in Ho; discriminate).
      split; split; intros; auto; try discriminate; contradiction.
  - cbn [says_older negb].
    split; split; intros; auto; try discriminate; tauto.
Qed.

(* ================================================================== *)
(** ** Refresh and upgrade-all *)

(** After a refresh that succeeded, a run without names ends there,
    whether or not upgrade-all was requested. *)
Lemma refresh_without_names module w :
  path_exists w APK_PATH = true ->
  update_cache (params module) = true ->
  no_names (name (params module)) = true ->
  ev_rc (call_event TUpdate "apk update" w) = 0 ->
  run (main module) w =
  (Stop (Exited true "updated repository indexes"),
   call_state TUpdate "apk update" {| world := w; trace := [] |}).
Proof.
  intros Hp Hu Hn Hrc. unfold run. rewrite main_eq. cbn [world].
  now rewrite Hp, Hu, Hn, Hrc.
Qed.

(** When a run gets as far as upgrade-all (no refresh, or a refresh that
    succeeded in a run with names), upgrade-all is all that is left of
    it: the run ends with the outcome of [upgrade_packages]. *)
Lemma upgrade_all_ends_run module w :
  path_exists w APK_PATH = true ->
  upgrade (params module) = true ->
  (update_cache (params module) = false ->
   run (main module) w = run (upgrade_packages module) w) /\
  (update_cache (params module) = true ->
   ev_rc (call_event TUpdate "apk update" w) = 0 ->
   no_names (name (params module)) = false ->
   run (main module) w =
   upgrade_packages module
     (call_state TUpdate "apk update" {| world := w; trace := [] |})).
Proof.
  intros Hp Hup. unfold run. rewrite main_eq. cbn [world].
  rewrite Hp, Hup. cbn [negb]. split.
  - now intros ->.
  - now intros -> -> ->.
Qed.

(** When upgrade-all is requested, no call of the per-package
    reconciliation is ever made. *)
Lemma upgrade_all_suppresses_reconciliation module w :
  upgrade (params module) = true ->
  forallb (fun e => negb (is_per_package (ev_tag e)))
          (calls (run (main module) w)) = true.
Proof.
  intros Hup. unfold run, calls. rewrite main_eq. cbn [world]. rewrite Hup.
  pose proof (upgrade_packages_eq module) as Hu. cbv zeta in Hu.
  destruct (path_exists w APK_PATH); cbn [negb]; [|reflexivity].
  destruct (update_cache (params module)).
  - destruct (ev_rc _ =? 0);
      [destruct (no_names (name (params module)))|];
      rewrite ?Hu; simpl; now rewrite !call_event_tag.
  - rewrite Hu. simpl. now rewrite call_event_tag.
Qed.

(* ================================================================== *)
(** ** Further properties of a run *)

(** X1.  Without the [apk] binary at [/sbin/apk] the run fails before
    anything is asked of the backend. *)
Theorem missing_binary_fails_first module w :
  path_exists w APK_PATH = false ->
  run (main module) w =
  (Stop (Failed "cannot find apk, looking for /sbin/apk"),
   {| world := w; trace := [] |}).
Proof.
  intros Hp. unfold run. rewrite main_eq. cbn [world]. now rewrite Hp.
Qed.

(** X2.  A refresh that does not succeed is fatal: the run fails with
    "could not update package db" and [apk update] is the only call it
    made, whatever else was requested. *)
Theorem refresh_failure_is_fatal module w :
  path_exists w APK_PATH = true ->
  update_cache (params module) = true ->
  ev_rc (call_event TUpdate "apk update" w) <> 0 ->
  let r := run (main module) w in
  outcome r = Some (Failed "could not update package db") /\
  calls r = [call_event TUpdate "apk update" w].
Proof.
  intros Hp Hu Hrc. cbv zeta. unfold run, outcome, calls.
  rewrite main_eq. cbn [world]. rewrite Hp, Hu. cbn [negb].
  apply Z.eqb_neq in Hrc. rewrite Hrc. auto.
Qed.

(** X4.  Upgrade-all without a refresh: the run consists of the single
    call [apk upgrade] ([apk upgrade --simulate] in check mode), whatever
    the names and the state.  A completion signal other than success is a
    failure, even if the output starts with OK; after success, the run
    reports no change exactly when the output starts with OK. *)
Theorem upgrade_all_run module w :
  path_exists w APK_PATH = true ->
  update_cache (params module) = false ->
  upgrade (params module) = true ->
  let cmd := if check_mode module then "apk upgrade --simulate"
             else "apk upgrade" in
  let e := call_event TUpgrade cmd w in
  let r := run (main module) w in
  calls r = [e] /\
  outcome r =
    Some (if ev_rc e =? 0
          then if starts_with_OK (ev_out e)
               then Exited false "packages already upgraded"
               else Exited true "upgraded packages"
          else Failed "failed to upgrade packages").
Proof.
  intros Hp Hu Hup. cbv zeta. unfold run, outcome, calls.
  rewrite main_eq. cbn [world]. rewrite Hp, Hu, Hup. cbn [negb].
  pose proof (upgrade_packages_eq module {| world := w; trace := [] |}) as H.
  cbv zeta in H. rewrite H. cbn [fst snd trace call_state world app].
  split; [reflexivity|]. now destruct (ev_rc _ =? 0).
Qed.

(** X9.  The aliases of [state]: a run with [installed] is the run with
    [present], and a run with [removed] is the run with [absent]. *)
Theorem state_aliases names uc up cm w :
  let m st := {| params := {| state := st; name := names;
                              update_cache := uc; upgrade := up |};
                 check_mode := cm |} in
  run (main (m installed)) w = run (main (m present)) w /\
  run (main (m removed)) w = run (main (m absent)) w.
Proof.
  cbv zeta. unfold run. rewrite !main_eq. split; reflexivity.
Qed.

(** X13.  An empty list of names, with neither refresh nor upgrade-all:
    nothing is asked of the backend and the run reports no change. *)
Theorem empty_request_is_noop module w :
  path_exists w APK_PATH = true ->
  name (params module) = Some [] ->
  update_cache (params module) = false ->
  upgrade (params module) = false ->
  run (main module) w =
  (Stop (Exited false
           (match normalize (state (params module)) with
            | absent => "package(s) already removed"
            | _ => "package(s) already installed"
            end)),
   {| world := w; trace := [] |}).
Proof.
  intros Hp Hn Hu Hup. unfold run. rewrite main_eq. cbn [world].
  rewrite Hp, Hn, Hu, Hup. cbn [negb].
  destruct (normalize_cases (state (params module))) as [E|[E|E]];
    rewrite E; reflexivity.
Qed.

(** X15.  [main] has no guard of its own for a request without [name]:
    when neither refresh nor upgrade-all is requested either, it reaches
    the loop over the names with [None], which raises; nothing was asked
    of the backend and nothing is reported. *)
Theorem missing_names_raise module w :
  path_exists w APK_PATH = true ->
  name (params module) = None ->
  update_cache (params module) = false ->
  upgrade (params module) = false ->
  run (main module) w = (Stop Raised, {| world := w; trace := [] |}).
Proof.
  intros Hp Hn Hu Hup. unfold run. rewrite main_eq. cbn [world].
  rewrite Hp, Hn, Hu, Hup. cbn [negb].
  destruct (normalize_cases (state (params module))) as [E|[E|E]];
    rewrite E; reflexivity.
Qed.

(** *** The shape of every run *)

Lemma info_tags_are_queries evs names :
  map ev_tag evs = map TInfo names ->
  forallb (fun e => is_query (ev_tag e)) evs = true.
Proof.
  revert names. induction evs as [|e evs IH]; intros [|n names] H;
    try discriminate; [reflexivity|].
  simpl in H. injection H as He H. simpl. rewrite He. simpl. eauto.
Qed.

(** What is left of a run after the refresh: queries, then either nothing
    more (an exception, or "nothing to do"), or one changing call whose
    completion signal decides between success and failure. *)
Lemma rest_cases module s :
  let r := if upgrade (params module) then upgrade_packages module s
           else
             match normalize (state (params module)) with
             | absent => remove_packages module (name (params module)) s
             | st => install_packages module (name (params module)) st s
             end in
  exists qs,
    forallb (fun e => is_query (ev_tag e)) qs = true /\
    ((trace (snd r) = (trace s ++ qs)%list /\
      (fst r = Stop Raised \/ exists msg, fst r = Stop (Exited false msg)))
     \/
     (exists e,
         trace (snd r) = (trace s ++ qs ++ [e])%list /\
         is_change (ev_tag e) = true /\
         ev_cmd e = change_cmd (check_mode module) (ev_tag e) /\
         if ev_rc e =? 0
         then exists b msg, fst r = Stop (Exited b msg) /\
                            (b = false -> ev_tag e = TUpgrade)
         else exists msg, fst r = Stop (Failed msg))).
Proof.
  cbv zeta. destruct (upgrade (params module)).
  - pose proof (upgrade_packages_eq module s) as H. cbv zeta in H. rewrite H.
    exists []. split; [reflexivity|]. right. eexists. cbn [fst snd].
    rewrite call_event_tag, call_event_cmd. repeat split.
    destruct (ev_rc _ =? 0); cbn [negb]; [|eauto].
    destruct (starts_with_OK _); do 2 eexists; (split; [reflexivity|]);
      intros; try reflexivity; discriminate.
  - assert (Hnone : forall st,
      install_packages module None st s = (Stop Raised, s)) by reflexivity.
    assert (Hnone' : remove_packages module None s = (Stop Raised, s))
      by reflexivity.
    destruct (name (params module)) as [names|].
    + destruct (normalize_cases (state (params module))) as [E|[E|E]];
        rewrite E.
      * destruct (install_packages_spec module names present s)
          as (evs & Hq & H). cbv zeta in H. exists evs. split; [assumption|].
        destruct H as [[Hf Htr]|[_ H]]; [left; auto|].
        destruct (_ && _); [destruct H as [Hf Htr]; left; eauto|].
        destruct H as (e & Ht & Hc & Htr & Hf). right. exists e.
        rewrite Ht, Hc, Hf. repeat split; auto.
        destruct (ev_rc e =? 0); eauto. do 2 eexists. split; eauto. discriminate.
      * destruct (remove_packages_spec module names s)
          as (evs & Hq & H). cbv zeta in H. exists evs.
        split; [eapply info_tags_are_queries; eauto|].
        destruct (is_empty _); [destruct H as [Hf Htr]; left; eauto|].
        destruct H as (e & Ht & Hc & Htr & Hf). right. exists e.
        rewrite Ht, Hc, Hf. repeat split; auto.
        destruct (ev_rc e =? 0); eauto. do 2 eexists. split; eauto. discriminate.
      * destruct (install_packages_spec module names latest s)
          as (evs & Hq & H). cbv zeta in H. exists evs. split; [assumption|].
        destruct H as [[Hf Htr]|[_ H]]; [left; auto|].
        destruct (_ && _); [destruct H as [Hf Htr]; left; eauto|].
        destruct H as (e & Ht & Hc & Htr & Hf). right. exists e.
        rewrite Ht, Hc, Hf. repeat split; auto.
        destruct (ev_rc e =? 0); eauto. do 2 eexists. split; eauto. discriminate.
    + exists []. split; [reflexivity|]. left.
      destruct (normalize_cases (state (params module))) as [E|[E|E]];
        rewrite E, ?Hnone, ?Hnone'; cbn [fst snd]; rewrite app_nil_r; auto.
Qed.

Ltac main_paths module w :=
  unfold run, outcome, calls; rewrite main_eq; cbv zeta; cbn [world];
  destruct (path_exists w APK_PATH) eqn:Hpath; cbn [negb];
  [ destruct (update_cache (params module)) eqn:Hcache;
    [ destruct (ev_rc (call_event TUpdate "apk update" w) =? 0) eqn:Hrc;
      [ destruct (no_names (name (params module))) eqn:Hnames | ] | ] | ].

Lemma forallb_impl A (P Q : A -> bool) l :
  (forall x, P x = true -> Q x = true) ->
  forallb P l = true -> forallb Q l = true.
Proof. intros H. rewrite !forallb_forall. auto. Qed.

Lemma change_is_no_query t : is_change t = true -> is_query t = false.
Proof. now destruct t. Qed.

Lemma rest_outcome_follows module s :
  forallb (fun e => negb (is_change (ev_tag e))) (trace s) = true ->
  let r := if upgrade (params module) then upgrade_packages module s
           else
             match normalize (state (params module)) with
             | absent => remove_packages module (name (params module)) s
             | st => install_packages module (name (params module)) st s
             end in
  match fst r with
  | Stop (Exited true _) =>
      exists pre e, trace (snd r) = (pre ++ [e])%list /\ ev_rc e = 0 /\
                    is_query (ev_tag e) = false
  | Stop (Exited false _) =>
      forallb (fun e => negb (is_transaction (ev_tag e))) (trace (snd r)) = true
  | Stop (Failed _) =>
      exists pre e, trace (snd r) = (pre ++ [e])%list /\ ev_rc e <> 0 /\
                    is_query (ev_tag e) = false
  | Stop Raised =>
      forallb (fun e => negb (is_change (ev_tag e))) (trace (snd r)) = true
  | Ret _ => False
  end.
Proof.
  intros Hs. cbv zeta.
  destruct (rest_cases module s) as (qs & Hq & H). cbv zeta in H.
  assert (Hq1 : forallb (fun e => negb (is_change (ev_tag e))) qs = true).
  { eapply forallb_impl; [|exact Hq]. cbv beta. intros e He.
    destruct (ev_tag e); try discriminate; reflexivity. }
  assert (Htx : forall l, forallb (fun e => negb (is_change (ev_tag e))) l = true ->
                forallb (fun e => negb (is_transaction (ev_tag e))) l = true).
  { intros l. apply forallb_impl. cbv beta. intros e He.
    destruct (ev_tag e); try discriminate; reflexivity. }
  destruct H as [[Htr [Hf|[msg Hf]]]|(e & Htr & Hc & _ & H)];
    rewrite ?Hf, Htr.
  - now rewrite forallb_app, Hs, Hq1.
  - apply Htx. now rewrite forallb_app, Hs, Hq1.
  - destruct (ev_rc e =? 0) eqn:Hrc.
    + destruct H as (b & msg & Hf & Hup). rewrite Hf. destruct b.
      * exists (trace s ++ qs)%list, e. rewrite <- app_assoc.
        apply Z.eqb_eq in Hrc. auto using change_is_no_query.
      * rewrite !forallb_app, !Htx by assumption. simpl.
        now rewrite (Hup eq_refl).
    + destruct H as (msg & Hf). rewrite Hf.
      exists (trace s ++ qs)%list, e. rewrite <- app_assoc.
      apply Z.eqb_neq in Hrc. auto using change_is_no_query.
Qed.

(** X8.  The outcome follows the calls.  Every run ends with a report or
    an exception.  [changed=True] is reported only right after a call that
    is not a query and that succeeded; a failure is reported only before
    any call (no [apk] binary) or right after a call that is not a query
    and that did not succeed.  A run that reports [changed=False] has
    submitted no [apk add] and no [apk del]; a run that ends in an
    exception has made no changing call at all. *)
Theorem outcome_follows_last_call module w :
  let r := run (main module) w in
  match outcome r with
  | Some (Exited true _) =>
      exists pre e, calls r = (pre ++ [e])%list /\ ev_rc e = 0 /\
                    is_query (ev_tag e) = false
  | Some (Exited false _) =>
      forallb (fun e => negb (is_transaction (ev_tag e))) (calls r) = true
  | Some (Failed _) =>
      calls r = [] \/
      exists pre e, calls r = (pre ++ [e])%list /\ ev_rc e <> 0 /\
                    is_query (ev_tag e) = false
  | Some Raised =>
      forallb (fun e => negb (is_change (ev_tag e))) (calls r) = true
  | None => False
  end.
Proof.
  cbv zeta. main_paths module w.
  - cbn [fst snd]. exists [], (call_event TUpdate "apk update" w).
    rewrite call_event_tag. apply Z.eqb_eq in Hrc. auto.
  - pose proof (@rest_outcome_follows module
      (call_state TUpdate "apk update" {| world := w; trace := [] |})) as H.
    cbv zeta in H.
    assert (Hpre : forallb (fun e => negb (is_change (ev_tag e)))
                     (trace (call_state TUpdate "apk update"
                               {| world := w; trace := [] |})) = true)
      by (simpl; now rewrite call_event_tag).
    specialize (H Hpre).
    destruct (fst _) as [a|[[] msg|msg|]]; auto.
  - cbn [fst snd]. right. exists [], (call_event TUpdate "apk update" w).
    rewrite call_event_tag. apply Z.eqb_neq in Hrc. auto.
  - pose proof (@rest_outcome_follows module {| world := w; trace := [] |}
                  eq_refl) as H.
    cbv zeta in H. destruct (fst _) as [a|[[] msg|msg|]]; auto.
  - cbn [fst snd]. now left.
Qed.

(** X10.  The calls of a run come in a fixed order: the refresh, if
    requested, as the plain [apk update]; then read-only queries; then at
    most one changing call ([apk upgrade], [apk add] or [apk del]), whose
    command line carries [--simulate] exactly in check mode.  Nothing is
    called after a changing call. *)
Theorem calls_in_order module w :
  let r := run (main module) w in
  exists upd qs fin,
    calls r = (upd ++ qs ++ fin)%list /\
    (upd = [] \/
     (update_cache (params module) = true /\
      upd = [call_event TUpdate "apk update" w])) /\
    forallb (fun e => is_query (ev_tag e)) qs = true /\
    (fin = [] \/
     exists e, fin = [e] /\ is_change (ev_tag e) = true /\
               ev_cmd e = change_cmd (check_mode module) (ev_tag e)).
Proof.
  cbv zeta. main_paths module w.
  - exists [call_event TUpdate "apk update" w], [], []. cbn [snd].
    repeat split; auto.
  - destruct (rest_cases module
                (call_state TUpdate "apk update" {| world := w; trace := [] |}))
      as (qs & Hq & H). cbv zeta in H.
    exists [call_event TUpdate "apk update" w], qs.
    destruct H as [[Htr _]|(e & Htr & Hc & Hcmd & _)]; rewrite Htr.
    + exists []. rewrite app_nil_r. repeat split; auto.
    + exists [e]. repeat split; eauto.
  - exists [call_event TUpdate "apk update" w], [], []. cbn [snd].
    repeat split; auto.
  - destruct (rest_cases module {| world := w; trace := [] |})
      as (qs & Hq & H). cbv zeta in H. exists [], qs.
    destruct H as [[Htr _]|(e & Htr & Hc & Hcmd & _)]; rewrite Htr.
    + exists []. rewrite app_nil_r. repeat split; auto.
    + exists [e]. repeat split; eauto.
  - exists [], [], []. repeat split; auto.
Qed.

(** X3.  A requested refresh is the first call of the run, and the only
    refresh in it.  It is issued as [apk update] in check mode too: the
    refresh is never simulated. *)
Theorem refresh_runs_first module w :
  path_exists w APK_PATH = true ->
  update_cache (params module) = true ->
  exists rest,
    calls (run (main module) w)
      = call_event TUpdate "apk update" w :: rest /\
    forallb (fun e => negb (is_update (ev_tag e))) rest = true.
Proof.
  intros Hp Hu. main_paths module w; try discriminate.
  - exists []. auto.
  - destruct (rest_cases module
                (call_state TUpdate "apk update" {| world := w; trace := [] |}))
      as (qs & Hq & H). cbv zeta in H.
    assert (Hq1 : forallb (fun e => negb (is_update (ev_tag e))) qs = true).
    { eapply forallb_impl; [|exact Hq]. cbv beta. intros e He.
      destruct (ev_tag e); try discriminate; reflexivity. }
    destruct H as [[Htr _]|(e & Htr & Hc & _)]; rewrite Htr.
    + exists qs. auto.
    + exists (qs ++ [e])%list. split; [reflexivity|].
      rewrite forallb_app, Hq1. simpl. now destruct (ev_tag e).
  - exists []. auto.
Qed.

(** *** Reconciliation under [present] and [latest] *)



Lemma install_loop_not_latest module st names :
  State_eqb st latest = false ->
  forall un s,
  exists evs s' un',
    for_each names (un, false) (install_packages_body module st) s
      = (Ret (un', false), s') /\
    trace s' = (trace s ++ evs)%list /\
    map ev_tag evs = map TInfo names.
Proof.
  intros Hst. induction names as [|n names IH]; intros un s.
  - exists [], s, un. unfold ret. simpl. now rewrite app_nil_r.
  - destruct (installed_at (world s) n) eqn:Hi.
    + rewrite install_step_present by assumption.
      destruct (IH un (call_state (TInfo n) (info_cmd n) s))
        as (evs & s' & un' & Hrun & Htr & Ht).
      exists (call_event (TInfo n) (info_cmd n) (world s) :: evs), s', un'.
      split; [exact Hrun|]. rewrite Htr. simpl.
      now rewrite call_event_tag, Ht, <- app_assoc.
    + rewrite install_step_missing by assumption.
      destruct (IH (un ++ [n])%list (call_state (TInfo n) (info_cmd n) s))
        as (evs & s' & un' & Hrun & Htr & Ht).
      exists (call_event (TInfo n) (info_cmd n) (world s) :: evs), s', un'.
      split; [exact Hrun|]. rewrite Htr. simpl.
      now rewrite call_event_tag, Ht, <- app_assoc.
Qed.

Lemma info_tags_need_no_latest evs names :
  map ev_tag evs = map TInfo names ->
  forallb (fun e => negb (needs_latest (ev_tag e))) evs = true.
Proof.
  revert names. induction evs as [|e evs IH]; intros [|n names] H;
    try discriminate; [reflexivity|].
  simpl in H. injection H as He H. simpl. rewrite He. simpl. eauto.
Qed.

Lemma rest_needs_no_latest module s :
  normalize (state (params module)) <> latest ->
  forallb (fun e => negb (needs_latest (ev_tag e))) (trace s) = true ->
  let r := if upgrade (params module) then upgrade_packages module s
           else
             match normalize (state (params module)) with
             | absent => remove_packages module (name (params module)) s
             | st => install_packages module (name (params module)) st s
             end in
  forallb (fun e => negb (needs_latest (ev_tag e))) (trace (snd r)) = true.
Proof.
  intros Hst Hs. cbv zeta. destruct (upgrade (params module)).
  - pose proof (upgrade_packages_eq module s) as H. cbv zeta in H. rewrite H.
    cbn [snd call_state trace]. rewrite forallb_app, Hs. simpl.
    now rewrite call_event_tag.
  - destruct (name (params module)) as [names|].
    + destruct (normalize_cases (state (params module))) as [E|[E|E]];
        [| |congruence]; rewrite E.
      * rewrite install_packages_eq.
        destruct (@install_loop_not_latest module present names eq_refl
                    [] s) as (evs & s' & un' & Hrun & Htr & Ht).
        rewrite Hrun. apply info_tags_need_no_latest in Ht.
        destruct (is_empty un' && negb false); cbn [snd call_state trace];
          rewrite Htr, ?forallb_app, Hs, Ht; [reflexivity|].
        simpl. now rewrite call_event_tag.
      * destruct (remove_packages_spec module names s) as (evs & Ht & H).
        cbv zeta in H. apply info_tags_need_no_latest in Ht.
        destruct (is_empty _).
        -- destruct H as [_ Htr]. now rewrite Htr, forallb_app, Hs, Ht.
        -- destruct H as (e & Htag & _ & Htr & _).
           rewrite Htr, !forallb_app, Hs, Ht. simpl. now rewrite Htag.
    + destruct (normalize_cases (state (params module))) as [E|[E|E]];
        rewrite E; exact Hs.
Qed.

(** X7.  Only [latest] looks at versions.  In a run whose state is not
    [latest], no update query is made and no [apk add] carries
    [--upgrade]. *)
Theorem only_latest_looks_at_versions module w :
  normalize (state (params module)) <> latest ->
  forallb (fun e => negb (needs_latest (ev_tag e)))
          (calls (run (main module) w)) = true.
Proof.
  intros Hst. main_paths module w.
  - simpl. now rewrite call_event_tag.
  - apply rest_needs_no_latest; [assumption|].
    simpl. now rewrite call_event_tag.
  - simpl. now rewrite call_event_tag.
  - now apply rest_needs_no_latest.
  - reflexivity.
Qed.

(** *** Exceptions *)

Lemma search_plain n out :
  plain (list_ascii_of_string n) = true -> search n out <> ReError.
Proof.
  intros H. unfold search. rewrite H. now destruct (re_search _ _).
Qed.

Lemma install_loop_no_raise module st names :
  (State_eqb st latest = true ->
   forallb (fun n => plain (list_ascii_of_string n)) names = true) ->
  forall acc s,
  exists a s',
    for_each names acc (install_packages_body module st) s = (Ret a, s').
Proof.
  induction names as [|n names IH]; intros Hplain [un up] s.
  - exists (un, up), s. reflexivity.
  - assert (IH' : forall acc s, exists a s',
              for_each names acc (install_packages_body module st) s
              = (Ret a, s')).
    { apply IH. intros Hl. specialize (Hplain Hl). simpl in Hplain.
      now apply andb_true_iff in Hplain. }
    destruct (installed_at (world s) n) eqn:Hi;
      [destruct (State_eqb st latest) eqn:Hl|].
    + rewrite install_step_latest by assumption. cbv zeta.
      specialize (Hplain eq_refl). simpl in Hplain.
      apply andb_true_iff in Hplain as [Hn _].
      pose proof (@search_plain n
        (ev_out (call_event (TVersion n) (version_cmd n)
           (world (call_state (TInfo n) (info_cmd n) s)))) Hn) as Hs.
      fold (older_at (world (call_state (TInfo n) (info_cmd n) s)) n) in Hs.
      destruct (older_at _ n); [congruence|apply IH'|apply IH'].
    + rewrite install_step_present by assumption. apply IH'.
    + rewrite install_step_missing by assumption. apply IH'.
Qed.

Lemma rest_does_not_raise module names s :
  name (params module) = Some names ->
  (normalize (state (params module)) = latest ->
   forallb (fun n => plain (list_ascii_of_string n)) names = true) ->
  let r := if upgrade (params module) then upgrade_packages module s
           else
             match normalize (state (params module)) with
             | absent => remove_packages module (name (params module)) s
             | st => install_packages module (name (params module)) st s
             end in
  fst r <> Stop Raised.
Proof.
  intros Hn Hplain. cbv zeta. rewrite Hn.
  destruct (upgrade (params module)).
  - pose proof (upgrade_packages_eq module s) as H. cbv zeta in H. rewrite H.
    cbn [fst]. destruct (negb _); [|destruct (starts_with_OK _)]; discriminate.
  - assert (Hinst : forall st,
      (State_eqb st latest = true ->
       forallb (fun n => plain (list_ascii_of_string n)) names = true) ->
      fst (install_packages module (Some names) st s) <> Stop Raised).
    { intros st Hst. rewrite install_packages_eq.
      destruct (@install_loop_no_raise module st names Hst ([], false) s)
        as ([un up] & s' & Hrun). rewrite Hrun.
      destruct (_ && _); cbn [fst]; [|destruct (_ =? 0)]; discriminate. }
    destruct (normalize_cases (state (params module))) as [E|[E|E]];
      rewrite E.
    + apply Hinst. discriminate.
    + destruct (remove_packages_spec module names s) as (evs & _ & H).
      cbv zeta in H. destruct (is_empty _).
      * destruct H as [Hf _]. rewrite Hf. discriminate.
      * destruct H as (e & _ & _ & _ & Hf). rewrite Hf.
        destruct (_ =? 0); discriminate.
    + apply Hinst. intros _. now apply Hplain.
Qed.

(** X14.  A run that was given names ends with a report, not with an
    exception, provided that under [latest] the names are free of
    regular-expression metacharacters. *)
Theorem run_does_not_raise module names w :
  name (params module) = Some names ->
  (normalize (state (params module)) = latest ->
   forallb (fun n => plain (list_ascii_of_string n)) names = true) ->
  outcome (run (main module) w) <> Some Raised.
Proof.
  intros Hn Hplain.
  assert (H : forall s,
    outcome (if upgrade (params module) then upgrade_packages module s
             else
               match normalize (state (params module)) with
               | absent => remove_packages module (name (params module)) s
               | st => install_packages module (name (params module)) st s
               end) <> Some Raised).
  { intros s. pose proof (@rest_does_not_raise module names s Hn Hplain) as H.
    cbv zeta in H. unfold outcome. destruct (fst _) as [a|o]; congruence. }
  unfold outcome in H. main_paths module w;
    try discriminate; apply H.
Qed.

(* ================================================================== *)
(** ** Further properties of the update query *)

Lemma in_skipn A (x : A) n l : In x (skipn n l) -> In x l.
Proof.
  intros H. rewrite <- (firstn_skipn n l). apply in_or_app. now right.
Qed.

Lemma line_shape_has_marker name m l : line_shape name m l -> In m l.
Proof.
  intros (v1 & r1 & w1 & w2 & v2 & r2 & w3 & -> & _).
  apply in_or_app. right. right.
  apply in_or_app. right. right.
  apply in_or_app. right.
  apply in_or_app. right. now left.
Qed.

(** X12.  The update query fails closed: for a name free of
    metacharacters, when the character [<] does not occur in what
    [apk version] printed -- empty output included, and whatever the
    completion signal of the command -- [query_latest] returns [True], no
    update. *)
Theorem no_marker_no_update module n s :
  plain (list_ascii_of_string n) = true ->
  ~ In "<"%char
       (list_ascii_of_string
          (ev_out (call_event (TVersion n) (version_cmd n) (world s)))) ->
  fst (query_latest module n s) = Ret true.
Proof.
  intros Hplain Hno. rewrite query_latest_eq. unfold older_at, search.
  rewrite Hplain. cbn [fst].
  pose proof (re_search_older (list_ascii_of_string n)
    (list_ascii_of_string
       (ev_out (call_event (TVersion n) (version_cmd n) (world s))))) as H.
  destruct (re_search _ _) as [g|]; [|reflexivity].
  destruct (says_older (Match (group g 2))) eqn:E; [|reflexivity].
  exfalso. apply says_older_iff in E. apply H in E.
  destruct E as (j & (l & rest & Hsk & Hshape) & _).
  apply Hno. apply in_skipn with (n := j). rewrite Hsk.
  apply in_or_app. left. eapply line_shape_has_marker; eauto.
Qed.


(* ================================================================== *)
(** ** Check mode *)

(** From the same point of a run, what is left of the run in check mode
    and outside it is the same, or the same up to a last, changing call
    that carries the same label in both. *)
Lemma rest_check_mode p s :
  let rest cm :=
    if upgrade p
    then upgrade_packages {| params := p; check_mode := cm |} s
    else
      match normalize (state p) with
      | absent => remove_packages {| params := p; check_mode := cm |} (name p) s
      | st => install_packages {| params := p; check_mode := cm |} (name p) st s
      end in
  rest true = rest false \/
  exists pre e0 e1,
    trace (snd (rest false)) = (pre ++ [e0])%list /\
    trace (snd (rest true)) = (pre ++ [e1])%list /\
    ev_tag e1 = ev_tag e0 /\ is_change (ev_tag e0) = true.
Proof.
  cbv zeta. destruct (upgrade p).
  - right.
    pose proof (upgrade_packages_eq {| params := p; check_mode := true |} s) as H1.
    pose proof (upgrade_packages_eq {| params := p; check_mode := false |} s) as H0.
    cbv zeta in H0, H1. rewrite H0, H1. cbn [snd call_state trace check_mode].
    do 3 eexists. split; [reflexivity|]. split; [reflexivity|].
    now rewrite !call_event_tag.
  - destruct (name p) as [names|].
    + assert (Hinst : forall st,
        install_packages {| params := p; check_mode := true |} (Some names) st s
        = install_packages {| params := p; check_mode := false |} (Some names) st s
        \/ exists pre e0 e1,
            trace (snd (install_packages {| params := p; check_mode := false |}
                                         (Some names) st s))
              = (pre ++ [e0])%list /\
            trace (snd (install_packages {| params := p; check_mode := true |}
                                         (Some names) st s))
              = (pre ++ [e1])%list /\
            ev_tag e1 = ev_tag e0 /\ is_change (ev_tag e0) = true).
      { intros st. rewrite !install_packages_eq.
        change (for_each names ([], false)
                  (install_packages_body {| params := p; check_mode := true |} st) s)
          with (for_each names ([], false)
                  (install_packages_body {| params := p; check_mode := false |} st) s).
        destruct (for_each names _ _ s) as [[[un up]|o] s']; [|now left].
        destruct (_ && _); [now left|right].
        cbn [snd call_state trace]. do 3 eexists.
        split; [reflexivity|]. split; [reflexivity|].
        now rewrite !call_event_tag. }
      destruct (normalize_cases (state p)) as [E|[E|E]]; rewrite E;
        try apply Hinst.
      rewrite !remove_packages_eq.
      change (for_each names []
                (remove_packages_body {| params := p; check_mode := true |}) s)
        with (for_each names []
                (remove_packages_body {| params := p; check_mode := false |}) s).
      destruct (for_each names _ _ s) as [[inst|o] s']; [|now left].
      destruct (is_empty inst); [now left|right].
      cbn [snd call_state trace]. do 3 eexists.
      split; [reflexivity|]. split; [reflexivity|].
      now rewrite !call_event_tag.
    + left. now destruct (normalize (state p)).
Qed.

Lemma same_plan pre e0 e1 (l0 l1 : list Event) :
  l0 = (pre ++ [e0])%list -> l1 = (pre ++ [e1])%list ->
  ev_tag e1 = ev_tag e0 -> is_change (ev_tag e0) = true ->
  map ev_tag l1 = map ev_tag l0 /\
  filter (fun e => negb (is_change (ev_tag e))) l1
  = filter (fun e => negb (is_change (ev_tag e))) l0 /\
  forallb (fun e => negb (is_change (ev_tag e))) l0 = false.
Proof.
  intros -> -> Ht Hc. rewrite !map_app, !filter_app, forallb_app. simpl.
  rewrite Ht, Hc. simpl. now rewrite andb_false_r.
Qed.

(** X5.  Check mode changes nothing but the command line of the changing
    call.  With the same parameters and from the same world, the run in
    check mode makes the same calls with the same labels as the run
    outside it -- the same refresh, the same queries with the same
    answers, the same batch and upgrade flag -- and when the run makes no
    changing call at all, the two runs are the same run. *)
Theorem check_mode_keeps_the_plan p w :
  let r0 := run (main {| params := p; check_mode := false |}) w in
  let r1 := run (main {| params := p; check_mode := true |}) w in
  map ev_tag (calls r1) = map ev_tag (calls r0) /\
  filter (fun e => negb (is_change (ev_tag e))) (calls r1)
  = filter (fun e => negb (is_change (ev_tag e))) (calls r0) /\
  (forallb (fun e => negb (is_change (ev_tag e))) (calls r0) = true ->
   r1 = r0).
Proof.
  cbv zeta.
  assert (H : run (main {| params := p; check_mode := true |}) w
              = run (main {| params := p; check_mode := false |}) w \/
              exists pre e0 e1,
                calls (run (main {| params := p; check_mode := false |}) w)
                  = (pre ++ [e0])%list /\
                calls (run (main {| params := p; check_mode := true |}) w)
                  = (pre ++ [e1])%list /\
                ev_tag e1 = ev_tag e0 /\ is_change (ev_tag e0) = true).
  { unfold run, calls. rewrite !main_eq. cbv zeta. cbn [world params].
    destruct (path_exists w APK_PATH); cbn [negb]; [|now left].
    destruct (update_cache p).
    - destruct (ev_rc _ =? 0); [|now left].
      destruct (no_names (name p)); [now left|].
      apply (rest_check_mode p
               (call_state TUpdate "apk update" {| world := w; trace := [] |})).
    - apply (rest_check_mode p {| world := w; trace := [] |}). }
  destruct H as [H|(pre & e0 & e1 & H0 & H1 & Ht & Hc)].
  - rewrite H. auto.
  - destruct (@same_plan pre e0 e1 _ _ H0 H1 Ht Hc) as (Hm & Hf & Hno).
    repeat split; auto. rewrite Hno. discriminate.
Qed.

(* ================================================================== *)
(** ** Refresh, then the rest *)

Lemma framed_ret A (a : A) : framed (ret a).
Proof. intros w tr. unfold ret. simpl. now rewrite app_nil_r. Qed.

Lemma framed_stop A (o : Outcome) : framed (fun s => (@Stop A o, s)).
Proof. intros w tr. simpl. now rewrite app_nil_r. Qed.

Lemma framed_bind A B (m : M A) (f : A -> M B) :
  framed m -> (forall a, framed (f a)) -> framed (bind m f).
Proof.
  intros Hm Hf w tr. unfold bind. rewrite (Hm w tr).
  destruct (m {| world := w; trace := [] |}) as [[a|o] [w1 t1]]; cbn [fst snd world trace].
  - rewrite (Hf a w1 (tr ++ t1)%list), (Hf a w1 t1).
    cbn [fst snd world trace]. now rewrite app_assoc.
  - reflexivity.
Qed.

Lemma framed_run_command tag cmd : framed (run_command tag cmd).
Proof. intros w tr. rewrite !run_command_eq. reflexivity. Qed.

Lemma framed_when c m : framed m -> framed (when c m).
Proof. destruct c; simpl; auto using framed_ret. Qed.

Lemma framed_for_each A B (body : A -> B -> M B) l :
  (forall x acc, framed (body x acc)) -> forall acc, framed (for_each l acc body).
Proof.
  intros Hb. induction l as [|x l IH]; intros acc; simpl.
  - apply framed_ret.
  - apply framed_bind; auto.
Qed.

Lemma framed_query_package module n : framed (query_package module n).
Proof.
  unfold query_package. apply framed_bind; [apply framed_run_command|].
  intros [[rc out] err]. destruct (rc =? 0); apply framed_ret.
Qed.

Lemma framed_query_latest module n : framed (query_latest module n).
Proof.
  unfold query_latest. apply framed_bind; [apply framed_run_command|].
  intros [[rc out] err].
  destruct (search n out) as [| |g]; [apply framed_stop| |];
    match goal with |- context [if ?b then _ else _] => destruct b end;
    apply framed_ret.
Qed.

Lemma framed_upgrade_packages module : framed (upgrade_packages module).
Proof.
  unfold upgrade_packages. apply framed_bind; [apply framed_run_command|].
  intros [[rc out] err].
  repeat (apply framed_bind; [apply framed_when, framed_stop|intros _]).
  apply framed_stop.
Qed.

Lemma framed_install_packages module names st :
  framed (install_packages module names st).
Proof.
  unfold install_packages. destruct names as [names|]; [|apply framed_stop].
  apply framed_bind.
  - apply framed_for_each. intros n [un up]. unfold install_packages_body.
    apply framed_bind; [apply framed_query_package|].
    intros inst. destruct (negb inst); [apply framed_ret|].
    destruct (State_eqb st latest); [|apply framed_ret].
    apply framed_bind; [apply framed_query_latest|].
    intros l. destruct (negb l); apply framed_ret.
  - intros [un up].
    apply framed_bind; [apply framed_when, framed_stop|intros _].
    apply framed_bind; [apply framed_run_command|].
    intros [[rc out] err].
    apply framed_bind; [apply framed_when, framed_stop|intros _].
    apply framed_stop.
Qed.

Lemma framed_remove_packages module names :
  framed (remove_packages module names).
Proof.
  unfold remove_packages. destruct names as [names|]; [|apply framed_stop].
  apply framed_bind.
  - apply framed_for_each. intros n inst. unfold remove_packages_body.
    apply framed_bind; [apply framed_query_package|].
    intros b. destruct b; apply framed_ret.
  - intros inst.
    apply framed_bind; [apply framed_when, framed_stop|intros _].
    apply framed_bind; [apply framed_run_command|].
    intros [[rc out] err].
    apply framed_bind; [apply framed_when, framed_stop|intros _].
    apply framed_stop.
Qed.

(** X11.  A run that refreshes and has names is the refresh followed by
    the run without refresh: when [apk update] succeeds, outcome and
    final world are those of the same request without [update_cache],
    started in the world the refresh left, and its calls are [apk update]
    followed by the calls of that run.  The refresh itself does not count
    as a change. *)
Theorem refresh_then_reconcile module w :
  path_exists w APK_PATH = true ->
  update_cache (params module) = true ->
  ev_rc (call_event TUpdate "apk update" w) = 0 ->
  no_names (name (params module)) = false ->
  let w1 := snd (backend w "apk update") in
  path_exists w1 APK_PATH = true ->
  let m0 := {| params := {| state := state (params module);
                            name := name (params module);
                            update_cache := false;
                            upgrade := upgrade (params module) |};
               check_mode := check_mode module |} in
  let r := run (main module) w in
  let r0 := run (main m0) w1 in
  outcome r = outcome r0 /\
  calls r = call_event TUpdate "apk update" w :: calls r0 /\
  world (snd r) = world (snd r0).
Proof.
  intros Hp Hu Hrc Hn w1 Hp1. cbv zeta. unfold run, outcome, calls.
  rewrite !main_eq. cbv zeta. cbn [world params update_cache].
  rewrite Hp, Hp1, Hu, Hn. apply Z.eqb_eq in Hrc. rewrite Hrc. cbn [negb].
  cbn [upgrade state name].
  set (rest := fun s : St =>
         if upgrade (params module) then upgrade_packages module s
         else
           match normalize (state (params module)) with
           | absent => remove_packages module (name (params module)) s
           | st => install_packages module (name (params module)) st s
           end).
  assert (Hf : framed rest).
  { unfold rest. intros w' tr. destruct (upgrade (params module)).
    - apply framed_upgrade_packages.
    - destruct (normalize (state (params module)));
        first [apply framed_install_packages|apply framed_remove_packages]. }
  change (call_state TUpdate "apk update" {| world := w; trace := [] |})
    with {| world := w1; trace := [call_event TUpdate "apk update" w] |}.
  pose proof (Hf w1 [call_event TUpdate "apk update" w]) as H.
  unfold rest in H.
  change (upgrade_packages
            {| params := _; check_mode := check_mode module |})
    with (upgrade_packages module).
  match goal with
  | |- context [fst ?a] =>
      match goal with
      | H : ?a = _ |- _ => rewrite H
      end
  end.
  cbn [fst snd world trace app]. auto.
Qed.

(* ================================================================== *)
(** ** No deduplication *)

Lemma install_packages_no_raise module names st s :
  (State_eqb st latest = true ->
   forallb (fun n => plain (list_ascii_of_string n)) names = true) ->
  fst (install_packages module (Some names) st s) <> Stop Raised.
Proof.
  intros Hst. rewrite install_packages_eq.
  destruct (@install_loop_no_raise module st names Hst ([], false) s)
    as ([un up] & s' & Hrun). rewrite Hrun.
  destruct (_ && _); cbn [fst]; [|destruct (_ =? 0)]; discriminate.
Qed.

Lemma count_occ_nonempty (l : list string) n :
  (0 < count_occ string_dec l n)%nat -> is_empty l = false.
Proof. destruct l; simpl; [lia|reflexivity]. Qed.

(** C10.  Nothing is deduplicated, and the transaction is submitted.
    Take a name [n] of the request that the backend reports as not
    installed at each of its queries.  Then [install_packages] -- unless
    it ends in an exception, which takes state [latest] and a name with
    a metacharacter -- makes its queries and then submits one [apk add];
    the names it carries are the names reported missing, in the order of
    the request, joined into the command line as they are, and [n]
    occurs among them as often as it occurs in the request.  Likewise
    for a name [m] of the request that the backend reports as installed
    at each of its queries: [remove_packages] makes its queries and then
    submits one [apk del] that carries the names reported installed, in
    the order of the request, with [m] as often as in the request. *)
Theorem no_deduplication module names st w n m :
  In n names -> In m names ->
  let ri := run (install_packages module (Some names) st) w in
  let rr := run (remove_packages module (Some names)) w in
  ((forall q, In q (calls ri) -> ev_tag q = TInfo n -> ev_rc q <> 0) ->
   (State_eqb st latest = true /\
    forallb (fun x => plain (list_ascii_of_string x)) names = false /\
    outcome ri = Some Raised) \/
   exists qs e up,
     calls ri = (qs ++ [e])%list /\
     forallb (fun q => is_query (ev_tag q)) qs = true /\
     queried qs = names /\
     ev_tag e = TAdd (reported_missing qs) up /\
     ev_cmd e = add_cmd module up (reported_missing qs) /\
     subseq (reported_missing qs) names /\
     count_occ string_dec (reported_missing qs) n
     = count_occ string_dec names n) /\
  ((forall q, In q (calls rr) -> ev_tag q = TInfo m -> ev_rc q = 0) ->
   exists qs e,
     calls rr = (qs ++ [e])%list /\
     map ev_tag qs = map TInfo names /\
     ev_tag e = TDel (reported_installed qs) /\
     ev_cmd e = del_cmd module (reported_installed qs) /\
     subseq (reported_installed qs) names /\
     count_occ string_dec (reported_installed qs) m
     = count_occ string_dec names m).
Proof.
  intros Hn Hm. cbv zeta. unfold run, calls, outcome. split.
  - intros Hall.
    destruct (install_packages_spec module names st {| world := w; trace := [] |})
      as (evs & Hq & H). cbv zeta in H. cbn [trace app] in H.
    destruct H as [[Hf Htr]|[Hqd H]].
    + left. rewrite Hf.
      destruct (State_eqb st latest) eqn:Hl.
      * destruct (forallb (fun x => plain (list_ascii_of_string x)) names)
          eqn:Hp; [exfalso|auto].
        apply (@install_packages_no_raise module names st
                 {| world := w; trace := [] |}); [|exact Hf].
        intros _. exact Hp.
      * exfalso.
        apply (@install_packages_no_raise module names st
                 {| world := w; trace := [] |}); [|exact Hf].
        intros Hx. congruence.
    + right.
      assert (Hin : forall q, In q evs ->
                In q (trace (snd (install_packages module (Some names) st
                                    {| world := w; trace := [] |})))).
      { intros q Hq'. destruct (_ && _).
        - destruct H as [_ Htr]. now rewrite Htr.
        - destruct H as (e & _ & _ & Htr & _). rewrite Htr.
          apply in_or_app. now left. }
      assert (Hcount : count_occ string_dec (reported_missing evs) n
                       = count_occ string_dec names n).
      { rewrite <- Hqd. apply reported_missing_count.
        intros q Hq'. apply Hall. now apply Hin. }
      assert (Hne : is_empty (reported_missing evs) = false).
      { apply count_occ_nonempty with (n := n). rewrite Hcount.
        now apply (count_occ_In string_dec). }
      rewrite Hne in H. cbn [andb] in H.
      destruct H as (e & Htag & Hcmd & Htr & _).
      exists evs, e, (reported_older evs). rewrite Htr.
      repeat split; auto.
      rewrite <- Hqd. apply reported_missing_subseq.
  - intros Hall.
    destruct (remove_packages_spec module names {| world := w; trace := [] |})
      as (evs & Ht & H). cbv zeta in H. cbn [trace app] in H.
    pose proof (queried_of_tags _ _ Ht) as Hqd.
    assert (Hin : forall q, In q evs ->
              In q (trace (snd (remove_packages module (Some names)
                                  {| world := w; trace := [] |})))).
    { intros q Hq'. destruct (is_empty _).
      - destruct H as [_ Htr]. now rewrite Htr.
      - destruct H as (e & _ & _ & Htr & _). rewrite Htr.
        apply in_or_app. now left. }
    assert (Hcount : count_occ string_dec (reported_installed evs) m
                     = count_occ string_dec names m).
    { rewrite <- Hqd. apply reported_installed_count.
      intros q Hq'. apply Hall. now apply Hin. }
    assert (Hne : is_empty (reported_installed evs) = false).
    { apply count_occ_nonempty with (n := m). rewrite Hcount.
      now apply (count_occ_In string_dec). }
    rewrite Hne in H.
    destruct H as (e & Htag & Hcmd & Htr & _).
    exists evs, e. rewrite Htr.
    repeat split; auto.
    rewrite <- Hqd. apply reported_installed_subseq.
Qed.

End Apk.

(* ================================================================== *)
(** ** The scenarios of the specification, run *)

(** Present, nothing to do. *)
Example present_nothing_to_do :
  let r := run (main foo_only always_there no_re
                    (mk present (Some ["foo"]) false false false)) tt in
  outcome r = Some (Exited false "package(s) already installed") /\
  commands r = ["apk -v info --installed foo"].
Proof. vm_compute. auto. Qed.

(** Present, missing package. *)
Example present_missing_package :
  let r := run (main foo_only always_there no_re
                    (mk present (Some ["foo"; "bar"]) false false false)) tt in
  outcome r = Some (Exited true "installed bar package(s)") /\
  install_batch (calls r) = ["bar"] /\
  commands r = ["apk -v info --installed foo"; "apk -v info --installed bar";
                "apk add bar"].
Proof. vm_compute. auto. Qed.

(** Absent, nothing installed. *)
Example absent_nothing_installed :
  let r := run (main nothing_installed always_there no_re
                    (mk absent (Some ["foo"]) false false false)) tt in
  outcome r = Some (Exited false "package(s) already removed") /\
  commands r = ["apk -v info --installed foo"].
Proof. vm_compute. auto. Qed.

(** Refresh-only run. *)
Example refresh_only :
  let r := run (main all_ok always_there no_re
                    (mk present None true false false)) tt in
  outcome r = Some (Exited true "updated repository indexes") /\
  commands r = ["apk update"].
Proof. vm_compute. auto. Qed.

(** Backend mutation failure. *)
Example mutation_failure :
  let r := run (main nothing_installed always_there no_re
                    (mk present (Some ["foo"; "bar"]) false false true)) tt in
  outcome r = Some (Failed "failed to install foo bar") /\
  commands r = ["apk -v info --installed foo"; "apk -v info --installed bar";
                "apk add --simulate foo bar"].
Proof. vm_compute. auto. Qed.

(** A name requested twice is submitted twice. *)
Example duplicates_kept :
  let r := run (main foo_missing always_there no_re
                    (mk present (Some ["foo"; "bar"; "foo"]) false false false)) tt in
  install_batch (calls r) = ["foo"; "foo"] /\
  commands r = ["apk -v info --installed foo"; "apk -v info --installed bar";
                "apk -v info --installed foo"; "apk add foo foo"].
Proof. vm_compute. auto. Qed.

(** Two runs in a row against a backend that remembers what it installed:
    the first installs, the second finds nothing to do. *)
Example two_runs_present :
  let m := mk present (Some ["foo"]) false false false in
  let r1 := run (main db_backend always_there no_re m) [] in
  let r2 := run (main db_backend always_there no_re m) (world (snd r1)) in
  outcome r1 = Some (Exited true "installed foo package(s)") /\
  world (snd r1) = ["foo"] /\
  outcome r2 = Some (Exited false "package(s) already installed").
Proof. vm_compute. auto. Qed.

(* ================================================================== *)
(** ** Where code and specification part *)

(** C1.  State [latest] over the single name [foo], which the backend
    reports installed with an update available.  The transaction is
    submitted with the upgrade modifier and the run reports
    [changed=True], but the list of names it carries is empty: the command
    line is [apk add --upgrade ] with no package after it, so [foo] is not
    named. *)
Theorem latest_stale_names_nothing :
  let r := run (main foo_stale always_there no_re
                     (mk latest (Some ["foo"]) false false false)) tt in
  map ev_tag (calls r) = [TInfo "foo"; TVersion "foo"; TAdd [] true] /\
  commands r = ["apk -v info --installed foo"; "apk version foo";
                "apk add --upgrade "] /\
  install_batch (calls r) = [] /\
  outcome r = Some (Exited true "installed  package(s)").
Proof. vm_compute. auto. Qed.

(** C3.  Refresh and upgrade-all requested together, without names: the
    refresh succeeds, the run ends there with [changed=True], and
    [apk upgrade] is never called. *)
Theorem refresh_and_upgrade_without_names :
  let r := run (main all_ok always_there no_re
                     (mk present None true true false)) tt in
  commands r = ["apk update"] /\
  outcome r = Some (Exited true "updated repository indexes").
Proof. vm_compute. auto. Qed.

(** C7.  Upgrade-all requested with a refresh: with a name in the request
    the refresh is followed by the upgrade, which ends the run; with an
    empty list of names the run ends after the refresh and upgrade-all
    does not run. *)
Theorem upgrade_all_skipped_after_refresh :
  let with_name := run (main all_ok always_there no_re
                             (mk latest (Some ["foo"]) true true true)) tt in
  let without := run (main all_ok always_there no_re
                           (mk latest (Some []) true true true)) tt in
  commands with_name = ["apk update"; "apk upgrade --simulate"] /\
  outcome with_name = Some (Exited true "upgraded packages") /\
  commands without = ["apk update"] /\
  outcome without = Some (Exited true "updated repository indexes").
Proof. vm_compute. auto. Qed.



(** C5 does not hold as stated.  Asked about [foo], with a listing that
    holds the line of [libfoo] alone, [query_latest] reports an update,
    though no line of the listing is the line of [foo].  And with a
    listing that holds a line of [foo] with [<] after a line of [foo]
    with [=], it reports none. *)
Lemma update_query_reads_other_lines :
  let m := mk latest (Some ["foo"]) false false false in
  (fst (run (query_latest foo_libfoo no_re m "foo") tt) = Ret false /\
   own_line_newer (list_ascii_of_string "foo")
                  (list_ascii_of_string libfoo_listing) = false) /\
  (fst (run (query_latest foo_two_lines no_re m "foo") tt) = Ret true /\
   own_line_newer (list_ascii_of_string "foo")
                  (list_ascii_of_string two_line_listing) = true).
Proof. vm_compute. auto. Qed.

Lemma query_latest_first_occurrence_witness :
  let m := mk latest (Some ["foo"]) false false false in
  let s := {| world := tt; trace := [] |} in
  let older := first_marker_older (list_ascii_of_string "foo")
                                  (list_ascii_of_string libfoo_listing) in
  plain (list_ascii_of_string "foo") = true /\
  (fst (query_latest foo_libfoo no_re m "foo" s) = Ret false <-> older) /\
  (fst (query_latest foo_libfoo no_re m "foo" s) = Ret true <-> ~ older).
Proof.
  cbv zeta. split; [reflexivity|].
  apply (@query_latest_first_occurrence unit foo_libfoo no_re
           (mk latest (Some ["foo"]) false false false) "foo"
           {| world := tt; trace := [] |}).
  reflexivity.
Defined.


(* ================================================================== *)
(** ** The further properties, on concrete backends *)

Lemma missing_binary_fails_first_witness :
  run (main all_ok (fun _ _ => false) no_re
            (mk present (Some ["foo"]) true true false)) tt =
  (@Stop unit (Failed "cannot find apk, looking for /sbin/apk"),
   {| world := tt; trace := [] |}).
Proof.
  apply (@missing_binary_fails_first unit all_ok (fun _ _ => false) no_re
           (mk present (Some ["foo"]) true true false) tt).
  reflexivity.
Defined.

Lemma refresh_failure_is_fatal_witness :
  let r := run (main nothing_installed always_there no_re
                     (mk present (Some ["foo"]) true true false)) tt in
  outcome r = Some (Failed "could not update package db") /\
  calls r = [call_event nothing_installed TUpdate "apk update" tt].
Proof.
  apply (@refresh_failure_is_fatal unit nothing_installed always_there no_re
           (mk present (Some ["foo"]) true true false) tt);
    try reflexivity.
  vm_compute. discriminate.
Defined.

Lemma upgrade_all_run_witness :
  let r := run (main all_ok always_there no_re
                     (mk absent (Some ["foo"]) false true true)) tt in
  calls r = [call_event all_ok TUpgrade "apk upgrade --simulate" tt] /\
  outcome r = Some (Exited true "upgraded packages").
Proof.
  apply (@upgrade_all_run unit all_ok always_there no_re
           (mk absent (Some ["foo"]) false true true) tt);
    reflexivity.
Defined.

Lemma empty_request_is_noop_witness :
  run (main nothing_installed always_there no_re
            (mk removed (Some []) false false false)) tt =
  (@Stop unit (Exited false "package(s) already removed"),
   {| world := tt; trace := [] |}).
Proof.
  apply (@empty_request_is_noop unit nothing_installed always_there no_re
           (mk removed (Some []) false false false) tt);
    reflexivity.
Defined.

Lemma missing_names_raise_witness :
  run (main all_ok always_there no_re
            (mk present None false false false)) tt =
  (@Stop unit Raised, {| world := tt; trace := [] |}).
Proof.
  apply (@missing_names_raise unit all_ok always_there no_re
           (mk present None false false false) tt);
    reflexivity.
Defined.

Lemma refresh_runs_first_witness :
  exists rest,
    calls (run (main foo_only always_there no_re
                     (mk present (Some ["foo"; "bar"]) true false true)) tt)
      = call_event foo_only TUpdate "apk update" tt :: rest /\
    forallb (fun e => negb (is_update (ev_tag e))) rest = true.
Proof.
  apply (@refresh_runs_first unit foo_only always_there no_re
           (mk present (Some ["foo"; "bar"]) true false true) tt);
    reflexivity.
Defined.

Lemma only_latest_looks_at_versions_witness :
  forallb (fun e => negb (needs_latest (ev_tag e)))
          (calls (run (main foo_stale always_there no_re
                            (mk installed (Some ["foo"]) false false false)) tt))
  = true.
Proof.
  apply (@only_latest_looks_at_versions unit foo_stale always_there no_re
           (mk installed (Some ["foo"]) false false false) tt).
  vm_compute. discriminate.
Defined.

Lemma run_does_not_raise_witness :
  outcome (run (main foo_stale always_there no_re
                     (mk latest (Some ["foo"]) false false false)) tt)
  <> Some Raised.
Proof.
  apply (@run_does_not_raise unit foo_stale always_there no_re
           (mk latest (Some ["foo"]) false false false) ["foo"] tt).
  - reflexivity.
  - intros _. reflexivity.
Defined.

Lemma no_marker_no_update_witness :
  fst (query_latest foo_current no_re
                    (mk latest (Some ["foo"]) false false false) "foo"
                    {| world := tt; trace := [] |}) = Ret true.
Proof.
  apply (@no_marker_no_update unit foo_current no_re
           (mk latest (Some ["foo"]) false false false) "foo"
           {| world := tt; trace := [] |}).
  - reflexivity.
  - vm_compute. intuition discriminate.
Defined.

Lemma refresh_then_reconcile_witness :
  let m := mk present (Some ["foo"; "bar"]) true false false in
  let m0 := mk present (Some ["foo"; "bar"]) false false false in
  let r := run (main foo_only always_there no_re m) tt in
  let r0 := run (main foo_only always_there no_re m0) tt in
  outcome r = outcome r0 /\
  calls r = call_event foo_only TUpdate "apk update" tt :: calls r0 /\
  world (snd r) = world (snd r0).
Proof.
  apply (@refresh_then_reconcile unit foo_only always_there no_re
           (mk present (Some ["foo"; "bar"]) true false false) tt);
    reflexivity.
Defined.

Lemma no_deduplication_witness :
  let names := ["foo"; "bar"; "foo"] in
  let module := mk present (Some names) false false false in
  let ri := run (install_packages foo_missing no_re module (Some names)
                                  present) tt in
  let rr := run (remove_packages foo_missing module (Some names)) tt in
  (exists qs e up,
      calls ri = (qs ++ [e])%list /\
      forallb (fun q => is_query (ev_tag q)) qs = true /\
      queried qs = names /\
      ev_tag e = TAdd (reported_missing qs) up /\
      ev_cmd e = add_cmd module up (reported_missing qs) /\
      subseq (reported_missing qs) names /\
      count_occ string_dec (reported_missing qs) "foo"
      = count_occ string_dec names "foo") /\
  (exists qs e,
      calls rr = (qs ++ [e])%list /\
      map ev_tag qs = map TInfo names /\
      ev_tag e = TDel (reported_installed qs) /\
      ev_cmd e = del_cmd module (reported_installed qs) /\
      subseq (reported_installed qs) names /\
      count_occ string_dec (reported_installed qs) "bar"
      = count_occ string_dec names "bar").
Proof.
  cbv zeta.
  destruct (@no_deduplication unit foo_missing no_re
              (mk present (Some ["foo"; "bar"; "foo"]) false false false)
              ["foo"; "bar"; "foo"] present tt "foo" "bar")
    as [Hi Hr].
  - simpl. auto.
  - simpl. auto.
  - split.
    + destruct Hi as [(Hl & _)|H]; [|discriminate Hl|exact H].
      intros q Hq. vm_compute in Hq.
      destruct Hq as [<-|[<-|[<-|[<-|[]]]]]; vm_compute; intros Ht;
        try discriminate Ht; discriminate.
    + apply Hr.
      intros q Hq. vm_compute in Hq.
      destruct Hq as [<-|[<-|[<-|[<-|[]]]]]; vm_compute; intros Ht;
        try discriminate Ht; reflexivity.
Defined.
